(** * Scenario MCP server: job orchestration and session routing

    A shallow embedding of [src/server.js].  The server exposes image
    operations of a remote, job-based provider: every operation submits a
    job over HTTP, polls it under a deadline ([waitForJob]) and resolves the
    resulting asset ids into descriptors.  An Express endpoint binds each
    inbound request to a per-session transport.

    The embedding keeps the shape of the JavaScript:
    - JSON data is a [Value]; property access on [undefined]/[null] throws;
    - handlers run in a state-and-exception monad [M] over a [World] that
      holds the clock read by [Date.now()] and the log of requests sent;
    - the provider and the timers are an oracle [Env], indexed by the number
      of requests already sent, so every run of the sequential code against
      any provider behaviour is an instance;
    - the [while] loop of [waitForJob] is a fixpoint on a fuel argument;
      running out of fuel is the outcome [Unfinished], and results are
      proved for every sufficiently large fuel;
    - the session table is a finite map from ids to transports, and the
      [/mcp] handler is cut at its suspension points, so that requests
      interleave.

    Layout: the embedding, the vocabulary used to describe runs, the
    router and a few scripted providers come first; the properties follow,
    component by component; concrete runs close the file. *)

From Stdlib Require Import ZArith QArith Qminmax Ascii String List Lia Bool.
From stdpp Require Import base option list strings pretty gmap.

Local Open Scope string_scope.
Local Open Scope list_scope.
Local Open Scope Z_scope.

(** ** JavaScript values *)

Module JS.

(** Numbers as the handlers receive them.  Tool arguments and provider
    payloads arrive as JSON text: a JSON number literal parses to a finite
    double, or overflows to an infinity; [NaN] has no JSON spelling.  Finite
    doubles are rationals, and the code only compares numbers, so [Q] with
    its order models them exactly. *)
Inductive number :=
| NegInfinity
| Finite (q : Q)
| Infinity.

Definition num_leb (a b : number) : bool :=
  match a, b with
  | NegInfinity, _ => true
  | _, Infinity => true
  | Finite x, Finite y => Qle_bool x y
  | _, _ => false
  end.

(** [a === b] on numbers. *)
Definition num_eqb (a b : number) : bool :=
  match a, b with
  | NegInfinity, NegInfinity => true
  | Infinity, Infinity => true
  | Finite x, Finite y => Qeq_bool x y
  | _, _ => false
  end.

(** [Math.max(a, b)] and [Math.min(a, b)]. *)
Definition Math_max (a b : number) : number := if num_leb a b then b else a.
Definition Math_min (a b : number) : number := if num_leb a b then a else b.

(** Numeric order and equality as propositions. *)
Definition num_le (a b : number) : Prop := num_leb a b = true.
Definition num_eq (a b : number) : Prop := num_eqb a b = true.

Definition of_Z (z : Z) : number := Finite (inject_Z z).

(** Values.  A string is the sequence of its characters, one [ascii] per
    character: the model covers the strings whose characters have codes
    below 256, for which a character, a code point and a UTF-16 unit are
    the same thing.  Strings with other characters are not values of the
    model. *)
#[warnings="-register-all"]
Inductive Value :=
| undefined
| null
| VBool (b : bool)
| VNum (n : number)
| VStr (s : string)
| VArr (items : list Value)
| VObj (props : list (string * Value)).

(** Own property [k] of an object literal; [undefined] when absent. *)
Fixpoint assoc (k : string) (props : list (string * Value)) : Value :=
  match props with
  | [] => undefined
  | (k', v) :: rest => if String.eqb k k' then v else assoc k rest
  end.

(** [v.k].  Reading a property of [undefined] or [null] throws a TypeError
    ([None]).  Primitives and arrays have none of the property names this
    program reads ([job], [status], [jobId], [metadata], [assetIds],
    [asset], [url], [properties], [width], [height]). *)
Definition member (v : Value) (k : string) : option Value :=
  match v with
  | undefined | null => None
  | VObj props => Some (assoc k props)
  | _ => Some undefined
  end.

(** [v?.k] *)
Definition opt_member (v : Value) (k : string) : Value :=
  match v with
  | VObj props => assoc k props
  | _ => undefined
  end.

(** [v[0]]: the first item of an array, the first character of a string,
    the property ["0"] of an object. *)
Definition first_item (v : Value) : option Value :=
  match v with
  | undefined | null => None
  | VArr items => Some (hd undefined items)
  | VStr (String c _) => Some (VStr (String c EmptyString))
  | VObj props => Some (assoc "0" props)
  | _ => Some undefined
  end.

(** The characters of a string, each as a string of its own. *)
Fixpoint chars (s : string) : list Value :=
  match s with
  | EmptyString => []
  | String c rest => VStr (String c EmptyString) :: chars rest
  end.

(** The items [for (const x of v)] visits: the items of an array, the
    characters of a string; anything else is not iterable and throws a
    TypeError ([None]). *)
Definition iterate (v : Value) : option (list Value) :=
  match v with
  | VArr items => Some items
  | VStr s => Some (chars s)
  | _ => None
  end.

(** [if (v)] *)
Definition truthy (v : Value) : bool :=
  match v with
  | undefined | null => false
  | VBool b => b
  | VNum (Finite q) => negb (Qeq_bool q 0)
  | VNum _ => true
  | VStr s => negb (String.eqb s "")
  | VArr _ | VObj _ => true
  end.

(** [v === 'literal'] *)
Definition is_string (v : Value) (lit : string) : bool :=
  match v with
  | VStr s => String.eqb s lit
  | _ => false
  end.

(** A destructured parameter with a default: [{ x = d }]. *)
Definition or_default (v d : Value) : Value :=
  match v with
  | undefined => d
  | _ => v
  end.

End JS.
Import JS.

(** ** The wire: requests, responses, errors *)

Inductive Method := GET | POST.

(** Endpoint paths.  Template literals keep the interpolated value:
    [Jobs jobId] is [`/jobs/${jobId}`], [Assets assetId] is
    [`/assets/${assetId}`]. *)
Inductive Endpoint :=
| GenerateTxt2img
| GenerateImg2img
| EditRemoveBackground
| EditUpscale
| Jobs (jobId : Value)
| Assets (assetId : Value).

(** The [options] handed to [fetch], with the URL's endpoint.  [body] is the
    value given to [JSON.stringify], absent when no body is set. *)
Record Request := {
  method : Method;
  endpoint : Endpoint;
  headers : list (string * string);
  body : option Value
}.

(** What [fetch] resolves to: the status line, the raw text of the body and
    the result of parsing that text as JSON ([None] when it is not JSON). *)
Record Response := {
  status : Z;
  text : string;
  json : option Value
}.

(** [response.ok] *)
Definition ok (r : Response) : bool := (200 <=? status r) && (status r <=? 299).

Inductive FetchOutcome :=
| NetworkError
| Responded (r : Response).

(** One request/response exchange and the time it took, in ms. *)
Record Exchange := {
  outcome : FetchOutcome;
  took : Z
}.

(** Thrown values.  Each [Error] of the source keeps what its message
    interpolates. *)
Inductive Error :=
| FetchFailed                               (* fetch rejected *)
| SyntaxError                               (* response.json() rejected *)
| TypeError                                 (* property of undefined, not iterable *)
| ScenarioApiError (code : Z) (error : string)
    (* `Scenario API error ${response.status}: ${error}` *)
| JobFailed (job : Value)
    (* `Job failed: ${JSON.stringify(result.job)}` *)
| JobTimedOut (maxWaitMs : Z).
    (* `Job timed out after ${maxWaitMs}ms` *)

(** ** Worlds and the handler monad *)

(** The process environment and the outside world's behaviour: the
    credential computed at start-up, the exchange that answers the [k]-th
    request, and by how much the timer set after [k] requests fires late. *)
Record Env := {
  SCENARIO_AUTH : string;
  serve : nat -> Exchange;
  overshoot : nat -> Z
}.

Record World := {
  clock : Z;              (* Date.now() *)
  wire : list Request     (* requests sent so far, oldest first *)
}.

Inductive Outcome (A : Type) :=
| Return (a : A)
| Throw (e : Error)
| Unfinished.
Arguments Return {A} a.
Arguments Throw {A} e.
Arguments Unfinished {A}.

Definition M (A : Type) : Type := World -> Outcome A * World.

Definition ret {A} (a : A) : M A := fun w => (Return a, w).
Definition throw {A} (e : Error) : M A := fun w => (Throw e, w).
Definition unfinished {A} : M A := fun w => (Unfinished, w).

Definition bind {A B} (m : M A) (k : A -> M B) : M B :=
  fun w =>
    match m w with
    | (Return a, w') => k a w'
    | (Throw e, w') => (Throw e, w')
    | (Unfinished, w') => (Unfinished, w')
    end.

Notation "'let!' x ':=' m 'in' k" := (bind m (fun x => k))
  (at level 10, x name, m at level 100, k at level 200,
   format "'[v' 'let!'  x  ':='  m  'in' '/' k ']'").

(** A TypeError where JavaScript would throw one. *)
Definition checked {A} (o : option A) : M A :=
  match o with
  | Some a => ret a
  | None => throw TypeError
  end.

Definition Date_now : M Z := fun w => (Return (clock w), w).

Section Server.

Variable env : Env.

(** [await new Promise(resolve => setTimeout(resolve, ms))] *)
Definition setTimeout (ms : Z) : M unit :=
  fun w =>
    (Return tt,
     {| clock := clock w + ms + overshoot env (length (wire w));
        wire := wire w |}).

(** [await fetch(url, options)] *)
Definition fetch (req : Request) : M Response :=
  fun w =>
    let x := serve env (length (wire w)) in
    let w' := {| clock := clock w + took x; wire := wire w ++ [req] |} in
    match outcome x with
    | Responded r => (Return r, w')
    | NetworkError => (Throw FetchFailed, w')
    end.

(** [await response.json()] *)
Definition response_json (r : Response) : M Value :=
  match json r with
  | Some v => ret v
  | None => throw SyntaxError
  end.

Definition options (method : Method) (endpoint : Endpoint) (body : Value) : Request :=
  {| method := method;
     endpoint := endpoint;
     headers := [("Authorization", "Basic " +:+ SCENARIO_AUTH env);
                 ("Accept", "application/json");
                 ("Content-Type", "application/json")];
     body := if truthy body then Some body else None |}.

(** [scenarioRequest(method, endpoint, body = null)] *)
Definition scenarioRequest (method : Method) (endpoint : Endpoint) (body : Value) : M Value :=
  let! response := fetch (options method endpoint body) in
  if negb (ok response)
  then throw (ScenarioApiError (status response) (text response))
  else response_json response.

(** The loop of [waitForJob]: one unit of fuel per test of the loop
    condition. *)
Fixpoint waitForJob_loop (fuel : nat) (jobId : Value) (maxWaitMs startTime : Z) : M Value :=
  match fuel with
  | O => unfinished
  | S fuel' =>
      let! now := Date_now in
      if now - startTime <? maxWaitMs then
        let! result := scenarioRequest GET (Jobs jobId) null in
        let! job := checked (member result "job") in
        let! jobStatus := checked (member job "status") in
        if is_string jobStatus "success" then ret job
        else if is_string jobStatus "failed" then throw (JobFailed job)
        else
          let! _ := setTimeout 2000 in
          waitForJob_loop fuel' jobId maxWaitMs startTime
      else throw (JobTimedOut maxWaitMs)
  end.

(** [waitForJob(jobId, maxWaitMs = 120000)] *)
Definition waitForJob (fuel : nat) (jobId : Value) (maxWaitMs : option Z) : M Value :=
  let maxWaitMs := default 120000 maxWaitMs in
  let! startTime := Date_now in
  waitForJob_loop fuel jobId maxWaitMs startTime.

(** *** Tool handlers *)

(** The object a handler returns,
    [{ content: [{ type: 'text', text: JSON.stringify(payload, null, 2) }] }],
    kept as the payload that is serialised. *)
Inductive ToolResult :=
| TextContent (payload : Value).

(** [for (const x of items) { ... }] over a loop-carried state. *)
Fixpoint for_of {T : Type} (items : list Value) (step : Value -> T -> M T) (acc : T) : M T :=
  match items with
  | [] => ret acc
  | x :: rest =>
      let! acc' := step x acc in
      for_of rest step acc'
  end.

(** The arguments of [txt2img], as destructured by the handler.  String
    and pass-through arguments are values ([undefined] when omitted);
    [numSamples] is the numeric knob, [None] when omitted. *)
Record Txt2imgArgs := {
  t2i_prompt : Value;
  t2i_modelId : Value;
  t2i_numSamples : option number;
  t2i_width : Value;
  t2i_height : Value;
  t2i_negativePrompt : Value
}.

Definition txt2img_body (a : Txt2imgArgs) : Value :=
  let modelId := or_default (t2i_modelId a) (VStr "flux.1-pro") in
  let numSamples := default (of_Z 1) (t2i_numSamples a) in
  let width := or_default (t2i_width a) (VNum (of_Z 1024)) in
  let height := or_default (t2i_height a) (VNum (of_Z 1024)) in
  let body :=
    [("modelId", modelId);
     ("prompt", t2i_prompt a);
     ("numSamples", VNum (Math_min (of_Z 4) (Math_max (of_Z 1) numSamples)));
     ("width", width);
     ("height", height)] in
  if truthy (t2i_negativePrompt a)
  then VObj (body ++ [("negativePrompt", t2i_negativePrompt a)])
  else VObj body.

(** The object literal pushed by the loop of [txt2img]; [None] when
    evaluating it throws a TypeError. *)
Definition txt2img_descriptor (assetId assetResult : Value) : option Value :=
  asset ← member assetResult "asset";
  url ← member asset "url";
  properties ← member asset "properties";
  Some (VObj [("id", assetId);
              ("url", url);
              ("width", opt_member properties "width");
              ("height", opt_member properties "height")]).

(** The body of the asset loops of [txt2img] and [img2img], which differ
    only in the object they push: fetch one asset, push its descriptor. *)
Definition push_asset (descriptor : Value -> Value -> option Value)
    (assetId : Value) (assets : list Value) : M (list Value) :=
  let! assetResult := scenarioRequest GET (Assets assetId) null in
  let! d := checked (descriptor assetId assetResult) in
  ret (assets ++ [d]).

Definition txt2img (fuel : nat) (a : Txt2imgArgs) : M ToolResult :=
  let body := txt2img_body a in
  let! result := scenarioRequest POST GenerateTxt2img body in
  let! submitted := checked (member result "job") in
  let! jobId := checked (member submitted "jobId") in
  let! job := waitForJob fuel jobId None in
  let! metadata := checked (member job "metadata") in
  let! assetIds := checked (member metadata "assetIds") in
  let! ids := checked (iterate assetIds) in
  let! assets := for_of ids (push_asset txt2img_descriptor) [] in
  ret (TextContent (VObj [("success", VBool true); ("assets", VArr assets)])).

Record Img2imgArgs := {
  i2i_prompt : Value;
  i2i_imageUrl : Value;
  i2i_modelId : Value;
  i2i_strength : option number
}.

Definition img2img_body (a : Img2imgArgs) : Value :=
  let modelId := or_default (i2i_modelId a) (VStr "flux.1-pro") in
  let strength := default (Finite (3 # 4)) (i2i_strength a) in
  VObj [("modelId", modelId);
        ("prompt", i2i_prompt a);
        ("image", i2i_imageUrl a);
        ("strength", VNum (Math_min (of_Z 1) (Math_max (of_Z 0) strength)))].

Definition img2img_descriptor (assetId assetResult : Value) : option Value :=
  asset ← member assetResult "asset";
  url ← member asset "url";
  Some (VObj [("id", assetId); ("url", url)]).

Definition img2img (fuel : nat) (a : Img2imgArgs) : M ToolResult :=
  let body := img2img_body a in
  let! result := scenarioRequest POST GenerateImg2img body in
  let! submitted := checked (member result "job") in
  let! jobId := checked (member submitted "jobId") in
  let! job := waitForJob fuel jobId None in
  let! metadata := checked (member job "metadata") in
  let! assetIds := checked (member metadata "assetIds") in
  let! ids := checked (iterate assetIds) in
  let! assets := for_of ids (push_asset img2img_descriptor) [] in
  ret (TextContent (VObj [("success", VBool true); ("assets", VArr assets)])).

Record RemoveBackgroundArgs := {
  rb_assetId : Value
}.

Definition remove_background_body (a : RemoveBackgroundArgs) : Value :=
  VObj [("assetId", rb_assetId a)].

(** The object [remove_background] serialises; [None] when evaluating it
    throws a TypeError. *)
Definition remove_background_payload (assetId newAssetId assetResult : Value) : option Value :=
  asset ← member assetResult "asset";
  url ← member asset "url";
  Some (VObj [("success", VBool true);
              ("originalAssetId", assetId);
              ("newAssetId", newAssetId);
              ("url", url)]).

Definition remove_background (fuel : nat) (a : RemoveBackgroundArgs) : M ToolResult :=
  let body := remove_background_body a in
  let! result := scenarioRequest POST EditRemoveBackground body in
  let! submitted := checked (member result "job") in
  let! jobId := checked (member submitted "jobId") in
  let! job := waitForJob fuel jobId None in
  let! metadata := checked (member job "metadata") in
  let! assetIds := checked (member metadata "assetIds") in
  let! newAssetId := checked (first_item assetIds) in
  let! assetResult := scenarioRequest GET (Assets newAssetId) null in
  let! payload := checked (remove_background_payload (rb_assetId a) newAssetId assetResult) in
  ret (TextContent payload).

Record UpscaleArgs := {
  up_assetId : Value;
  up_scalingFactor : option number
}.

Definition upscale_body (a : UpscaleArgs) : Value :=
  let scalingFactor := default (of_Z 2) (up_scalingFactor a) in
  VObj [("assetId", up_assetId a);
        ("scalingFactor",
         VNum (if num_eqb scalingFactor (of_Z 4) then of_Z 4 else of_Z 2))].

Definition upscale_payload (assetId newAssetId assetResult : Value) : option Value :=
  asset ← member assetResult "asset";
  url ← member asset "url";
  properties ← member asset "properties";
  Some (VObj [("success", VBool true);
              ("originalAssetId", assetId);
              ("newAssetId", newAssetId);
              ("url", url);
              ("width", opt_member properties "width");
              ("height", opt_member properties "height")]).

Definition upscale (fuel : nat) (a : UpscaleArgs) : M ToolResult :=
  let body := upscale_body a in
  let! result := scenarioRequest POST EditUpscale body in
  let! submitted := checked (member result "job") in
  let! jobId := checked (member submitted "jobId") in
  let! job := waitForJob fuel jobId (Some 180000) in
  let! metadata := checked (member job "metadata") in
  let! assetIds := checked (member metadata "assetIds") in
  let! newAssetId := checked (first_item assetIds) in
  let! assetResult := scenarioRequest GET (Assets newAssetId) null in
  let! payload := checked (upscale_payload (up_assetId a) newAssetId assetResult) in
  ret (TextContent payload).

(** The orchestrated operations registered with [server.tool], and a call
    of one of them by name. *)
Inductive Call :=
| CallTxt2img (a : Txt2imgArgs)
| CallImg2img (a : Img2imgArgs)
| CallRemoveBackground (a : RemoveBackgroundArgs)
| CallUpscale (a : UpscaleArgs).

Definition call_tool (fuel : nat) (c : Call) : M ToolResult :=
  match c with
  | CallTxt2img a => txt2img fuel a
  | CallImg2img a => img2img fuel a
  | CallRemoveBackground a => remove_background fuel a
  | CallUpscale a => upscale fuel a
  end.

End Server.

(** ** Describing runs

    The definitions below do not embed code: they name what a run sees, so
    that the properties can speak of "the status sequence of a job" and of
    "the request that was submitted". *)

(** What [scenarioRequest] makes of the exchange it is served. *)
Definition answer (x : Exchange) : Outcome Value :=
  match outcome x with
  | NetworkError => Throw FetchFailed
  | Responded r =>
      if ok r then
        match json r with
        | Some v => Return v
        | None => Throw SyntaxError
        end
      else Throw (ScenarioApiError (status r) (text r))
  end.

(** What one pass of the polling loop sees in the answer to its status
    query: a terminal status with the job that carries it, a non-terminal
    one, or an error. *)
Inductive Observation :=
| Running
| Succeeded (job : Value)
| Failed (job : Value)
| Broken (e : Error).

Definition observe (x : Exchange) : Observation :=
  match answer x with
  | Return result =>
      match member result "job" with
      | Some job =>
          match member job "status" with
          | Some jobStatus =>
              if is_string jobStatus "success" then Succeeded job
              else if is_string jobStatus "failed" then Failed job
              else Running
          | None => Broken TypeError
          end
      | None => Broken TypeError
      end
  | Throw e => Broken e
  | Unfinished => Broken TypeError
  end.

Section Runs.

Variable env : Env.
Variable w : World.   (* the world in which the code under study starts *)

(** The answer to the [i]-th request sent from [w] on. *)
Definition served (i : nat) : Exchange := serve env (length (wire w) + i).

(** [Date.now()] at the [i]-th test of the loop condition of a
    [waitForJob] called in [w], while every earlier pass went on to sleep:
    each pass takes one exchange and one timer of 2000 ms. *)
Fixpoint poll_clock (i : nat) : Z :=
  match i with
  | O => clock w
  | S j => poll_clock j + took (served j) + 2000 + overshoot env (length (wire w) + S j)
  end.

(** The world at that test, for the status queries of [jobId]. *)
Definition at_poll (jobId : Value) (i : nat) : World :=
  {| clock := poll_clock i;
     wire := wire w ++ replicate i (options env GET (Jobs jobId) null) |}.

(** The world right after the [i]-th status query was answered. *)
Definition after_poll (jobId : Value) (i : nat) : World :=
  {| clock := poll_clock i + took (served i);
     wire := wire w ++ replicate (S i) (options env GET (Jobs jobId) null) |}.

(** The world once the request [req], sent in [w], has been answered. *)
Definition after_request (req : Request) : World :=
  {| clock := clock w + took (served 0); wire := wire w ++ [req] |}.

(** The descriptor the asset loop builds from the answer to the [i]-th
    request, were that request the fetch of [assetId]; [None] when the
    fetch fails or the descriptor cannot be built from its answer. *)
Definition described (descriptor : Value -> Value -> option Value)
    (i : nat) (assetId : Value) : option Value :=
  match answer (served i) with
  | Return assetResult => descriptor assetId assetResult
  | _ => None
  end.

(** The first request a handler sends when run in [w]. *)
Definition submission {A : Type} (run : M A) : option Request :=
  wire (snd (run w)) !! length (wire w).

(** The requests a handler sends when run in [w]. *)
Definition sent {A : Type} (run : M A) : list Request :=
  drop (length (wire w)) (wire (snd (run w))).

End Runs.

(** The asset ids whose descriptors a tool result carries: the [id] of each
    entry of [assets], or the single [newAssetId]. *)
Definition descriptor_ids (r : ToolResult) : list Value :=
  match r with
  | TextContent payload =>
      match opt_member payload "assets" with
      | VArr assets => map (fun d => opt_member d "id") assets
      | _ => [opt_member payload "newAssetId"]
      end
  end.

(** The asset requests among a list of requests, by asset id. *)
Definition asset_fetches (reqs : list Request) : list Value :=
  omap (fun r => match endpoint r with Assets assetId => Some assetId | _ => None end) reqs.

(** Per operation: the submission request, the deadline given to
    [waitForJob] and the object built from a fetched asset. *)
Definition submit_request (env : Env) (c : Call) : Request :=
  match c with
  | CallTxt2img a => options env POST GenerateTxt2img (txt2img_body a)
  | CallImg2img a => options env POST GenerateImg2img (img2img_body a)
  | CallRemoveBackground a => options env POST EditRemoveBackground (remove_background_body a)
  | CallUpscale a => options env POST EditUpscale (upscale_body a)
  end.

Definition deadline_of (c : Call) : Z :=
  match c with
  | CallUpscale _ => 180000
  | _ => 120000
  end.

Definition descriptor_of (c : Call) : Value -> Value -> option Value :=
  match c with
  | CallTxt2img _ => txt2img_descriptor
  | CallImg2img _ => img2img_descriptor
  | CallRemoveBackground a => remove_background_payload (rb_assetId a)
  | CallUpscale a => upscale_payload (up_assetId a)
  end.

(** The submission of [c] in [w] is answered with the id [jobId]; the
    status queries that follow observe [p] non-terminal statuses and then
    the job [job] with status [success], every query being sent before the
    operation's deadline. *)
Definition job_succeeds (env : Env) (w : World) (c : Call) (fuel p : nat)
    (jobId job : Value) : Prop :=
  let w1 := after_request env w (submit_request env c) in
  (exists result submitted,
      answer (served env w 0) = Return result /\
      member result "job" = Some submitted /\
      member submitted "jobId" = Some jobId) /\
  (forall i, (i < p)%nat -> observe (served env w1 i) = Running) /\
  observe (served env w1 p) = Succeeded job /\
  (forall i, (i <= p)%nat -> poll_clock env w1 i - clock w1 < deadline_of c) /\
  (p < fuel)%nat.

(** The output ids of a terminal job: [job.metadata.assetIds], iterated. *)
Definition output_ids (job : Value) : option (list Value) :=
  metadata ← member job "metadata";
  assetIds ← member metadata "assetIds";
  iterate assetIds.

(** The output ids an operation resolves: the generators loop over all of
    them, the editors read [assetIds[0]]. *)
Definition resolved (c : Call) (ids : list Value) : list Value :=
  match c with
  | CallTxt2img _ | CallImg2img _ => ids
  | CallRemoveBackground _ | CallUpscale _ => [hd undefined ids]
  end.

(** The property [k] of the body an operation submits when called in [w]. *)
Definition submitted_field (env : Env) (fuel : nat) (w : World) (c : Call)
    (k : string) : option Value :=
  req ← submission w (call_tool env fuel c);
  submittedBody ← body req;
  member submittedBody k.

(** [n] is [x] clamped to the range from [lo] to [hi]. *)
Definition clamped (lo hi x n : number) : Prop :=
  num_le lo n /\ num_le n hi /\
  (num_le lo x -> num_le x hi -> num_eq n x) /\
  (~ num_le lo x -> n = lo) /\
  (~ num_le x hi -> n = hi).

Definition with_numSamples (a : Txt2imgArgs) (n : number) : Txt2imgArgs :=
  {| t2i_prompt := t2i_prompt a;
     t2i_modelId := t2i_modelId a;
     t2i_numSamples := Some n;
     t2i_width := t2i_width a;
     t2i_height := t2i_height a;
     t2i_negativePrompt := t2i_negativePrompt a |}.

(** The asset in the answer to the [i]-th request sent from [w] on:
    [result.asset] of a 2xx answer with a JSON body, when it is there and
    not [null]. *)
Definition fetched_asset (env : Env) (w : World) (i : nat) : option Value :=
  match answer (served env w i) with
  | Return result =>
      match member result "asset" with
      | Some (undefined | null) => None
      | other => other
      end
  | _ => None
  end.

(** The world in which an operation begins to resolve, its submission
    answered and its job seen to succeed at status query [p]. *)
Definition at_resolution (env : Env) (w : World) (c : Call) (jobId : Value)
    (p : nat) : World :=
  after_poll env (after_request env w (submit_request env c)) jobId p.

Definition with_strength (a : Img2imgArgs) (s : number) : Img2imgArgs :=
  {| i2i_prompt := i2i_prompt a;
     i2i_imageUrl := i2i_imageUrl a;
     i2i_modelId := i2i_modelId a;
     i2i_strength := Some s |}.

(** The error an asset fetch ends the loop with when it yields no
    descriptor: the error of the request, or the TypeError of reading the
    answer. *)
Definition resolution_error (x : Exchange) : Error :=
  match answer x with
  | Throw e => e
  | _ => TypeError
  end.

(** A computation that only ever appends to the log of requests. *)
Definition grows {A : Type} (m : M A) : Prop :=
  forall w, exists l, wire (snd (m w)) = wire w ++ l.

(** ** The session router

    The Express handler of [/mcp] and the table [sessions].  Transports are
    objects of the protocol library; the model keeps their identity (the
    order of creation) and the one thing routing depends on, whether a
    transport has finalized its session id.  The handler suspends at its
    [await]s, so requests interleave between [route] (the code up to
    [await server.connect]) and [handleRequest]. *)

Module Router.

Record Transport := {
  sessionId : option string
}.

Record State := {
  sessions : gmap string nat;   (* const sessions = new Map(): id to transport *)
  heap : list Transport;        (* the transports created so far *)
  generated : nat               (* calls of randomUUID() so far *)
}.

(** An inbound request: its [mcp-session-id] header, and whether the
    protocol library takes it as the request that opens a session. *)
Record Inbound := {
  mcp_session_id : option string;
  initializes : bool
}.

Definition start : State :=
  {| sessions := ∅; heap := []; generated := 0 |}.

Section Gateway.

(** The value the [k]-th call of [randomUUID()] returns. *)
Variable randomUUID : nat -> string.

(** [sessions.get(sessionId)], the header possibly [undefined]. *)
Definition sessions_get (st : State) (key : option string) : option nat :=
  id ← key; sessions st !! id.

(** [(id) => { sessionId = id; sessions.set(id, transport); }] *)
Definition onsessioninitialized (transport : nat) (id : string) (st : State) : State :=
  {| sessions := <[id := transport]> (sessions st);
     heap := heap st;
     generated := generated st |}.

(** The handler up to its first suspension: look the transport up, create
    one when the table has none.  The result is the transport whose
    [handleRequest] the handler goes on to call. *)
Definition route (req : Inbound) (st : State) : nat * State :=
  match sessions_get st (mcp_session_id req) with
  | Some transport => (transport, st)
  | None =>
      (length (heap st),
       {| sessions := sessions st;
          heap := heap st ++ [{| sessionId := None |}];
          generated := generated st |})
  end.

(** Modelled from the spec: [transport.handleRequest] belongs to the
    protocol library, which is not part of the repository.  Following the
    interface of section 6, a transport finalizes its session id once, on
    the request that opens the session: it draws the id from
    [sessionIdGenerator] and invokes [onsessioninitialized] with it.  Any
    other request leaves the table alone. *)
Definition handleRequest (transport : nat) (req : Inbound) (st : State) : State :=
  match heap st !! transport with
  | Some {| sessionId := None |} =>
      if initializes req then
        let id := randomUUID (generated st) in
        onsessioninitialized transport id
          {| sessions := sessions st;
             heap := <[transport := {| sessionId := Some id |}]> (heap st);
             generated := S (generated st) |}
      else st
  | _ => st
  end.

(** The steps that interleave: a request arrives and is routed; a routed
    request is handled by its transport. *)
Inductive Event :=
| Arrives (req : Inbound)
| Handles (transport : nat) (req : Inbound).

Definition step (st : State) (e : Event) : State :=
  match e with
  | Arrives req => snd (route req st)
  | Handles transport req => handleRequest transport req st
  end.

Definition run (es : list Event) (st : State) : State := foldl step st es.

Definition reachable (st : State) : Prop := exists es, st = run es start.

(** Registered transports carry the id they are registered under, and
    every finalized id was drawn from the generator. *)
Definition consistent (st : State) : Prop :=
  (forall id t, sessions st !! id = Some t ->
     heap st !! t = Some {| sessionId := Some id |}) /\
  (forall t id, heap st !! t = Some {| sessionId := Some id |} ->
     exists k, (k < generated st)%nat /\ id = randomUUID k).

End Gateway.

End Router.

(** ** Scripted providers

    Concrete runs: a provider that answers the requests it receives with a
    fixed script, then with a fixed last answer for ever. *)

Module Script.

(** JSON text, written with apostrophes where JSON has double quotes. *)
Fixpoint json_text (s : string) : string :=
  match s with
  | EmptyString => EmptyString
  | String c rest =>
      String (if Ascii.eqb c "'"%char then Ascii.ascii_of_nat 34 else c) (json_text rest)
  end.

Definition replies (raw : string) (v : Value) (ms : Z) : Exchange :=
  {| outcome := Responded {| status := 200; text := json_text raw; json := Some v |};
     took := ms |}.

Definition refuses (code : Z) (raw : string) (ms : Z) : Exchange :=
  {| outcome := Responded {| status := code; text := raw; json := None |};
     took := ms |}.

Definition scripted (script : list Exchange) (last : Exchange) : Env :=
  {| SCENARIO_AUTH := "a2V5OnNlY3JldA==";
     serve := fun k => nth k script last;
     overshoot := fun _ => 0 |}.

Definition w0 : World := {| clock := 1700000000000; wire := [] |}.

Definition j1 : Value := VStr "j1".
Definition a1 : Value := VStr "a1".
Definition a2 : Value := VStr "a2".

Definition submitted_j1 : Exchange :=
  replies "{'job':{'jobId':'j1'}}"
    (VObj [("job", VObj [("jobId", j1)])]) 120.

Definition pending_j1 : Exchange :=
  replies "{'job':{'jobId':'j1','status':'pending'}}"
    (VObj [("job", VObj [("jobId", j1); ("status", VStr "pending")])]) 40.

Definition job_done (ids : list Value) : Value :=
  VObj [("jobId", j1);
        ("status", VStr "success");
        ("metadata", VObj [("assetIds", VArr ids)])].

Definition success_one : Exchange :=
  replies "{'job':{'jobId':'j1','status':'success','metadata':{'assetIds':['a1']}}}"
    (VObj [("job", job_done [a1])]) 40.

Definition success_two : Exchange :=
  replies "{'job':{'jobId':'j1','status':'success','metadata':{'assetIds':['a1','a2']}}}"
    (VObj [("job", job_done [a1; a2])]) 40.

Definition job_broken : Value :=
  VObj [("jobId", j1); ("status", VStr "failed"); ("error", VStr "out of credits")].

Definition failed_j1 : Exchange :=
  replies "{'job':{'jobId':'j1','status':'failed','error':'out of credits'}}"
    (VObj [("job", job_broken)]) 40.

Definition asset_a1 : Exchange :=
  replies "{'asset':{'id':'a1','url':'https://x/a1.png','properties':{'width':1024,'height':1024}}}"
    (VObj [("asset",
            VObj [("id", a1);
                  ("url", VStr "https://x/a1.png");
                  ("properties",
                   VObj [("width", VNum (of_Z 1024)); ("height", VNum (of_Z 1024))])])])
    60.

Definition asset_a2 : Exchange :=
  replies "{'asset':{'id':'a2','url':'https://x/a2.png','properties':{'width':1024,'height':1024}}}"
    (VObj [("asset",
            VObj [("id", a2);
                  ("url", VStr "https://x/a2.png");
                  ("properties",
                   VObj [("width", VNum (of_Z 1024)); ("height", VNum (of_Z 1024))])])])
    60.

Definition not_found : Exchange := refuses 404 "not found" 25.

(** Submit, then [pending, pending, success] with the output [a1]. *)
Definition scenario : Env :=
  scripted [submitted_j1; pending_j1; pending_j1; success_one] asset_a1.

(** A job that stays pending for ever. *)
Definition stalled : Env := scripted [] pending_j1.

(** A job that fails at the second status query. *)
Definition failing : Env := scripted [submitted_j1; pending_j1; failed_j1] not_found.

(** A job that succeeds at once with the two outputs [a1] and [a2]. *)
Definition twins : Env := scripted [submitted_j1; success_two; asset_a1] asset_a2.

(** Assets [a1] and [a2] can be fetched. *)
Definition library : Env := scripted [asset_a1] asset_a2.

(** Asset [a1] can be fetched, nothing else. *)
Definition gap : Env := scripted [asset_a1] not_found.

(** Nothing can be fetched. *)
Definition missing : Env := scripted [] not_found.

Definition a_prompt : Txt2imgArgs :=
  {| t2i_prompt := VStr "a lighthouse at dusk";
     t2i_modelId := undefined;
     t2i_numSamples := None;
     t2i_width := undefined;
     t2i_height := undefined;
     t2i_negativePrompt := undefined |}.

Definition an_upscale : UpscaleArgs :=
  {| up_assetId := VStr "src"; up_scalingFactor := Some (of_Z 4) |}.

(** The world in which [txt2img] starts to wait, its submission answered. *)
Definition w1 : World :=
  after_request scenario w0 (submit_request scenario (CallTxt2img a_prompt)).

(** The id generator of the routing examples: the decimal numerals. *)
Definition counter_id (k : nat) : string := pretty k.

Definition opener : Router.Inbound :=
  {| Router.mcp_session_id := None; Router.initializes := true |}.

End Script.

(** ** Read-only tools

    [get_asset] in full, and [list_models] and [list_assets] from the
    answer of their request on: the query string they send is built with
    [URLSearchParams] and [String(pageSize)], which are left to the
    runtime. *)

(** [v.map(f)].  [None] is a TypeError: [v] is not an array (so it has no
    [map] to call), or [f] throws on an item. *)
Definition Array_map (f : Value -> option Value) (v : Value) : option Value :=
  match v with
  | VArr items => VArr <$> mapM f items
  | _ => None
  end.

(** [m => ({ id: m.id, name: m.name, type: m.type, status: m.status })] *)
Definition model_summary (m : Value) : option Value :=
  id ← member m "id";
  name ← member m "name";
  type ← member m "type";
  modelStatus ← member m "status";
  Some (VObj [("id", id); ("name", name); ("type", type); ("status", modelStatus)]).

(** [list_models], once [result] is there. *)
Definition list_models_result (result : Value) : option ToolResult :=
  models ← member result "models";
  summaries ← Array_map model_summary models;
  Some (TextContent summaries).

(** [a => ({ id: a.id, url: a.url, type: a.metadata?.type,
            name: a.metadata?.name, description: a.description,
            createdAt: a.createdAt })] *)
Definition asset_summary (a : Value) : option Value :=
  id ← member a "id";
  url ← member a "url";
  metadata ← member a "metadata";
  description ← member a "description";
  createdAt ← member a "createdAt";
  Some (VObj [("id", id);
              ("url", url);
              ("type", opt_member metadata "type");
              ("name", opt_member metadata "name");
              ("description", description);
              ("createdAt", createdAt)]).

(** [list_assets], once [result] is there. *)
Definition list_assets_result (result : Value) : option ToolResult :=
  assets ← member result "assets";
  summaries ← Array_map asset_summary assets;
  Some (TextContent summaries).

(** The object [get_asset] serialises. *)
Definition get_asset_payload (result : Value) : option Value :=
  asset ← member result "asset";
  id ← member asset "id";
  url ← member asset "url";
  metadata ← member asset "metadata";
  description ← member asset "description";
  properties ← member asset "properties";
  createdAt ← member asset "createdAt";
  Some (VObj [("id", id);
              ("url", url);
              ("type", opt_member metadata "type");
              ("description", description);
              ("width", opt_member properties "width");
              ("height", opt_member properties "height");
              ("createdAt", createdAt)]).

Definition get_asset (env : Env) (assetId : Value) : M ToolResult :=
  let! result := scenarioRequest env GET (Assets assetId) null in
  let! payload := checked (get_asset_payload result) in
  ret (TextContent payload).

(** ** More vocabulary for runs *)

(** [undefined] or [null]. *)
Definition nullish (v : Value) : bool :=
  match v with
  | undefined | null => true
  | _ => false
  end.

(** A request that only reads: a [GET] without a body. *)
Definition is_query (r : Request) : bool :=
  match method r, body r with
  | GET, None => true
  | _, _ => false
  end.

(** A request that carries the credential of the process. *)
Definition authorized (env : Env) (r : Request) : Prop :=
  In ("Authorization", "Basic " +:+ SCENARIO_AUTH env) (headers r).

(** A computation that appends to the log only requests satisfying [P]. *)
Definition sends {A : Type} (P : Request -> Prop) (m : M A) : Prop :=
  forall w, exists l, wire (snd (m w)) = wire w ++ l /\ Forall P l.

(** The [/mcp] handler when nothing interleaves: route the request, then
    let the transport handle it. *)
Definition mcp (randomUUID : nat -> string) (req : Router.Inbound)
    (st : Router.State) : nat * Router.State :=
  let transport := fst (Router.route req st) in
  (transport,
   Router.handleRequest randomUUID transport req (snd (Router.route req st))).

(** More scripted providers. *)
Module Cases.
Import Script.

Definition busy : Exchange := refuses 503 "busy" 30.
Definition unauthorized : Exchange := refuses 401 "unauthorized" 20.

(** The second status query is refused. *)
Definition flaky : Env := scripted [submitted_j1; pending_j1; busy] not_found.

(** The submission is refused. *)
Definition locked : Env := scripted [] unauthorized.

(** No request ever gets through. *)
Definition offline : Env :=
  scripted [] {| outcome := NetworkError; took := 5 |}.

(** An asset without metadata and properties. *)
Definition bare_asset : Value :=
  VObj [("asset", VObj [("id", VStr "zz"); ("url", VStr "https://x/zz.png")])].

Definition bare : Env :=
  scripted []
    (replies "{'asset':{'id':'zz','url':'https://x/zz.png'}}" bare_asset 35).

(** A listing of assets with a hole in it. *)
Definition holed_listing : Value :=
  VObj [("assets", VArr [VObj [("id", a1)]; null; VObj [("id", a2)]])].

(** A listing of one model that has more than the four listed properties. *)
Definition models_listing : Value :=
  VObj [("models",
         VArr [VObj [("id", VStr "m1");
                     ("name", VStr "flux");
                     ("type", VStr "flux.1");
                     ("status", VStr "trained");
                     ("ownerId", VStr "u7")]])].

Definition an_edit : RemoveBackgroundArgs := {| rb_assetId := VStr "src" |}.

Definition an_image : Img2imgArgs :=
  {| i2i_prompt := VStr "the same, in winter";
     i2i_imageUrl := VStr "https://x/src.png";
     i2i_modelId := undefined;
     i2i_strength := None |}.


Definition follow_up : Router.Inbound :=
  {| Router.mcp_session_id := Some (counter_id 0); Router.initializes := false |}.

End Cases.

(** * Properties *)

(** ** The provider client *)

Lemma scenarioRequest_answer env method endpoint body w :
  scenarioRequest env method endpoint body w =
    (answer (served env w 0),
     after_request env w (options env method endpoint body)).
Proof.
  assert (Hs : served env w 0 = serve env (length (wire w)))
    by (unfold served; f_equal; lia).
  unfold scenarioRequest, bind, fetch, answer, response_json, after_request.
  rewrite Hs.
  destruct (outcome _) as [|r]; [reflexivity|].
  destruct (ok r); simpl; [|reflexivity].
  destruct (json r); reflexivity.
Qed.

Lemma answer_finished x : answer x <> Unfinished.
Proof.
  unfold answer. destruct (outcome x) as [|r]; [discriminate|].
  destruct (ok r); [|discriminate]. destruct (json r); discriminate.
Qed.

(** Reading a property of anything but [undefined] and [null] succeeds. *)
Lemma member_defined v k :
  nullish v = false -> member v k = Some (opt_member v k).
Proof. destruct v; cbn; try discriminate; reflexivity. Qed.

Lemma member_nullish v k : nullish v = true -> member v k = None.
Proof. destruct v; cbn; try discriminate; reflexivity. Qed.

(** ** The polling loop *)

Section Polling.

Variable env : Env.
Variable w : World.
Variable jobId : Value.
Variable d : Z.

Lemma at_poll_0 : at_poll env w jobId 0 = w.
Proof. unfold at_poll. simpl. rewrite app_nil_r. destruct w; reflexivity. Qed.

Lemma served_at_poll i : served env (at_poll env w jobId i) 0 = served env w i.
Proof.
  unfold served, at_poll. simpl.
  rewrite length_app, length_replicate. f_equal. lia.
Qed.

(** Past the deadline the loop condition fails and the loop throws. *)
Lemma loop_deadline i fuel :
  d <= poll_clock env w i - clock w ->
  waitForJob_loop env (S fuel) jobId d (clock w) (at_poll env w jobId i) =
    (Throw (JobTimedOut d), at_poll env w jobId i).
Proof.
  intros Hd. simpl. unfold bind, Date_now. simpl.
  destruct (Z.ltb_spec (poll_clock env w i - clock w) d); [lia|reflexivity].
Qed.

(** Before the deadline one pass sends one status query and acts on what
    it observes. *)
Lemma loop_pass i fuel :
  poll_clock env w i - clock w < d ->
  waitForJob_loop env (S fuel) jobId d (clock w) (at_poll env w jobId i) =
    match observe (served env w i) with
    | Running =>
        waitForJob_loop env fuel jobId d (clock w) (at_poll env w jobId (S i))
    | Succeeded job => (Return job, after_poll env w jobId i)
    | Failed job => (Throw (JobFailed job), after_poll env w jobId i)
    | Broken e => (Throw e, after_poll env w jobId i)
    end.
Proof.
  intros Hd. cbn [waitForJob_loop]. unfold bind at 1, Date_now at 1.
  cbn [clock at_poll].
  destruct (Z.ltb_spec (poll_clock env w i - clock w) d); [|lia].
  unfold bind at 1. rewrite scenarioRequest_answer, served_at_poll.
  assert (Hw : after_request env (at_poll env w jobId i) (options env GET (Jobs jobId) null)
               = after_poll env w jobId i).
  { unfold after_request. rewrite served_at_poll.
    unfold after_poll, at_poll. cbn [clock wire].
    rewrite <- app_assoc, <- replicate_S_end. reflexivity. }
  rewrite Hw. clear Hw.
  unfold observe.
  destruct (answer (served env w i)) as [result|e|] eqn:Ha;
    [|reflexivity|destruct (answer_finished _ Ha)].
  unfold bind at 1, checked at 1.
  destruct (member result "job") as [job|]; [|reflexivity].
  unfold ret at 1, bind at 1, checked at 1.
  destruct (member job "status") as [jobStatus|]; [|reflexivity].
  unfold ret at 1.
  destruct (is_string jobStatus "success"); [reflexivity|].
  destruct (is_string jobStatus "failed"); [reflexivity|].
  unfold bind at 1, setTimeout at 1.
  f_equal. unfold at_poll, after_poll. cbn [clock wire poll_clock].
  rewrite length_app, length_replicate. reflexivity.
Qed.

(** [p] passes that all observe a non-terminal status, each begun before
    the deadline, use up [p] units of fuel and lead to the [p]-th test. *)
Lemma loop_running p :
  forall fuel,
  (forall i, (i < p)%nat -> observe (served env w i) = Running) ->
  (forall i, (i < p)%nat -> poll_clock env w i - clock w < d) ->
  waitForJob_loop env (p + fuel) jobId d (clock w) w =
    waitForJob_loop env fuel jobId d (clock w) (at_poll env w jobId p).
Proof.
  induction p as [|p IH]; intros fuel Hrun Hclk.
  - rewrite at_poll_0. reflexivity.
  - replace (S p + fuel)%nat with (p + S fuel)%nat by lia.
    rewrite IH by (intros; auto with lia).
    rewrite loop_pass by auto with lia.
    rewrite Hrun by lia. reflexivity.
Qed.

(** The outcome of the pass that follows [p] non-terminal ones. *)
Lemma loop_settles p fuel :
  (p < fuel)%nat ->
  (forall i, (i < p)%nat -> observe (served env w i) = Running) ->
  (forall i, (i <= p)%nat -> poll_clock env w i - clock w < d) ->
  waitForJob env fuel jobId (Some d) w =
    match observe (served env w p) with
    | Running =>
        waitForJob_loop env (fuel - S p) jobId d (clock w) (at_poll env w jobId (S p))
    | Succeeded job => (Return job, after_poll env w jobId p)
    | Failed job => (Throw (JobFailed job), after_poll env w jobId p)
    | Broken e => (Throw e, after_poll env w jobId p)
    end.
Proof.
  intros Hfuel Hrun Hclk.
  unfold waitForJob, bind, Date_now. cbn [default].
  replace fuel with (p + S (fuel - S p))%nat at 1 by lia.
  rewrite loop_running by auto with lia.
  apply loop_pass. auto with lia.
Qed.

(** While the clock advances by at least the timer's 2000 ms per pass, the
    loop reaches its deadline within [fuel] passes when
    [2000 * fuel] covers what is left of the budget. *)
Lemma loop_expires fuel :
  (forall i, 0 <= took (served env w i) /\ 0 <= overshoot env (length (wire w) + S i)) ->
  (forall i, poll_clock env w i - clock w < d -> observe (served env w i) = Running) ->
  forall i,
  d - (poll_clock env w i - clock w) <= 2000 * Z.of_nat fuel ->
  exists k,
    waitForJob_loop env (S fuel) jobId d (clock w) (at_poll env w jobId i) =
      (Throw (JobTimedOut d), at_poll env w jobId k) /\
    d <= poll_clock env w k - clock w.
Proof.
  intros Hsane Hrun.
  induction fuel as [|fuel IH]; intros i Hleft.
  - exists i. split; [apply loop_deadline|]; lia.
  - destruct (Z.lt_ge_cases (poll_clock env w i - clock w) d) as [Hlt|Hge].
    + rewrite loop_pass by assumption. rewrite Hrun by assumption.
      apply IH. cbn [poll_clock].
      destruct (Hsane i) as [Ht Ho]. lia.
    + exists i. split; [apply loop_deadline|]; lia.
Qed.

End Polling.

(** C3. For every job whose polled status sequence reaches [success] in a
    pass begun before the deadline - [p] non-terminal observations, then a
    job with status [success] - [waitForJob] returns that job, and the
    status query that observed it is the last request sent: exactly
    [p + 1] queries, none after the terminal read. *)
Theorem waitForJob_returns_success env w jobId d p job fuel :
  (forall i, (i < p)%nat -> observe (served env w i) = Running) ->
  observe (served env w p) = Succeeded job ->
  (forall i, (i <= p)%nat -> poll_clock env w i - clock w < d) ->
  (p < fuel)%nat ->
  waitForJob env fuel jobId (Some d) w =
    (Return job,
     {| clock := poll_clock env w p + took (served env w p);
        wire := wire w ++ replicate (S p) (options env GET (Jobs jobId) null) |}).
Proof.
  intros Hrun Hok Hclk Hfuel.
  rewrite (loop_settles env w jobId d p fuel) by assumption.
  rewrite Hok. reflexivity.
Qed.

(** C4. For every job whose polled status sequence reaches [failed] in a
    pass begun before the deadline, [waitForJob] throws the job-failed
    error with the whole job object of that answer, at the moment the
    answer arrives (no timer is set, whatever is left of the budget) and
    without a further query. *)
Theorem waitForJob_throws_failed env w jobId d p job fuel :
  (forall i, (i < p)%nat -> observe (served env w i) = Running) ->
  observe (served env w p) = Failed job ->
  (forall i, (i <= p)%nat -> poll_clock env w i - clock w < d) ->
  (p < fuel)%nat ->
  waitForJob env fuel jobId (Some d) w =
    (Throw (JobFailed job),
     {| clock := poll_clock env w p + took (served env w p);
        wire := wire w ++ replicate (S p) (options env GET (Jobs jobId) null) |}).
Proof.
  intros Hrun Hko Hclk Hfuel.
  rewrite (loop_settles env w jobId d p fuel) by assumption.
  rewrite Hko. reflexivity.
Qed.

(** C2, amended. For every deadline [d] and every job whose status
    queries begun before [d] ms have elapsed all observe a non-terminal
    status, [waitForJob] throws the timeout error.  The error carries the
    deadline [d] it was given, and the time that has really elapsed when it
    is thrown is at least [d]. *)
Theorem waitForJob_times_out env w jobId d fuel :
  (forall i, 0 <= took (served env w i) /\ 0 <= overshoot env (length (wire w) + S i)) ->
  (forall i, poll_clock env w i - clock w < d -> observe (served env w i) = Running) ->
  (Z.to_nat (d / 2000) + 2 <= fuel)%nat ->
  exists w',
    waitForJob env fuel jobId (Some d) w = (Throw (JobTimedOut d), w') /\
    d <= clock w' - clock w.
Proof.
  intros Hsane Hrun Hfuel.
  destruct fuel as [|fuel]; [lia|].
  destruct (loop_expires env w jobId d fuel Hsane Hrun 0%nat) as (k & Hk & Hd).
  - cbn [poll_clock].
    pose proof (Z.mul_succ_div_gt d 2000 ltac:(lia)).
    destruct (Z.le_gt_cases 0 d); [|lia].
    assert (0 <= d / 2000) by (apply Z.div_pos; lia).
    lia.
  - exists (at_poll env w jobId k). split; [|exact Hd].
    unfold waitForJob, bind, Date_now. cbn [default].
    rewrite at_poll_0 in Hk. exact Hk.
Qed.

(** ** Resolving output ids *)

Section Resolution.

Variable env : Env.
Variable descriptor : Value -> Value -> option Value.

Lemma served_after_request w req i :
  served env (after_request env w req) i = served env w (S i).
Proof.
  unfold served, after_request. cbn [wire].
  rewrite length_app. cbn [length]. f_equal. lia.
Qed.

Lemma described_after_request w req i assetId :
  described env (after_request env w req) descriptor i assetId =
    described env w descriptor (S i) assetId.
Proof. unfold described. rewrite served_after_request. reflexivity. Qed.

(** One pass of the asset loop. *)
Lemma push_asset_run assetId assets w :
  push_asset env descriptor assetId assets w =
    (match described env w descriptor 0 assetId with
     | Some d => Return (assets ++ [d])
     | None => Throw (resolution_error (served env w 0))
     end,
     after_request env w (options env GET (Assets assetId) null)).
Proof.
  unfold push_asset, bind. rewrite scenarioRequest_answer.
  unfold described, resolution_error.
  destruct (answer (served env w 0)) as [assetResult|e|] eqn:Ha;
    [|reflexivity|destruct (answer_finished _ Ha)].
  unfold checked. destruct (descriptor assetId assetResult); reflexivity.
Qed.

(** When every fetch yields a descriptor, the loop returns them all, in
    the order of the ids, after one request per id. *)
Lemma for_of_resolves ids :
  forall assets0 w,
  (forall i assetId, ids !! i = Some assetId ->
     is_Some (described env w descriptor i assetId)) ->
  exists assets w',
    for_of ids (push_asset env descriptor) assets0 w = (Return (assets0 ++ assets), w') /\
    wire w' = wire w ++ map (fun assetId => options env GET (Assets assetId) null) ids /\
    forall i, assets !! i = ids !! i ≫= described env w descriptor i.
Proof.
  induction ids as [|assetId ids IH]; intros assets0 w Hall.
  - exists [], w. cbn. rewrite !app_nil_r. auto.
  - cbn [for_of]. unfold bind at 1. rewrite push_asset_run.
    destruct (Hall 0%nat assetId eq_refl) as [d Hd]. rewrite Hd.
    destruct (IH (assets0 ++ [d])
                 (after_request env w (options env GET (Assets assetId) null)))
      as (assets & w' & Hrun & Hwire & Hlook).
    { intros i a Hi. rewrite described_after_request. apply (Hall (S i)). exact Hi. }
    exists (d :: assets), w'. split; [|split].
    + rewrite Hrun, <- app_assoc. reflexivity.
    + rewrite Hwire. unfold after_request. cbn [wire map].
      rewrite <- app_assoc. reflexivity.
    + intros [|i]; cbn.
      * symmetry. exact Hd.
      * rewrite Hlook. destruct (ids !! i); cbn; [|reflexivity].
        apply described_after_request.
Qed.

(** A fetch that yields no descriptor makes the loop throw: at the first
    such fetch, with the error of that fetch, and without fetching the ids
    that follow. *)
Lemma for_of_first_failure ids :
  forall assets0 w k assetId,
  ids !! k = Some assetId ->
  (forall i a, (i < k)%nat -> ids !! i = Some a ->
     is_Some (described env w descriptor i a)) ->
  described env w descriptor k assetId = None ->
  exists w',
    for_of ids (push_asset env descriptor) assets0 w =
      (Throw (resolution_error (served env w k)), w') /\
    wire w' =
      wire w ++ map (fun a => options env GET (Assets a) null) (take (S k) ids).
Proof.
  induction ids as [|a0 ids IH]; intros assets0 w k assetId Hk Hbefore Hnone.
  - discriminate.
  - cbn [for_of]. unfold bind at 1. rewrite push_asset_run.
    destruct k as [|k].
    + injection Hk as ->. rewrite Hnone.
      eexists. split; [reflexivity|].
      unfold after_request. cbn. reflexivity.
    + destruct (Hbefore 0%nat a0 ltac:(lia) eq_refl) as [d Hd]. rewrite Hd.
      destruct (IH (assets0 ++ [d])
                   (after_request env w (options env GET (Assets a0) null))
                   k assetId Hk)
        as (w' & Hrun & Hwire).
      { intros i a Hi Ha. rewrite described_after_request.
        apply (Hbefore (S i)); [lia|exact Ha]. }
      { rewrite described_after_request. exact Hnone. }
      exists w'. split.
      * rewrite Hrun, served_after_request. reflexivity.
      * rewrite Hwire. unfold after_request. cbn [wire map take].
        rewrite <- app_assoc. reflexivity.
Qed.

(** Any fetch that yields no descriptor makes the loop throw. *)
Lemma for_of_any_failure ids :
  forall assets0 w k assetId,
  ids !! k = Some assetId ->
  described env w descriptor k assetId = None ->
  exists e w', for_of ids (push_asset env descriptor) assets0 w = (Throw e, w').
Proof.
  induction ids as [|a0 ids IH]; intros assets0 w k assetId Hk Hnone.
  - discriminate.
  - cbn [for_of]. unfold bind at 1. rewrite push_asset_run.
    destruct (described env w descriptor 0 a0) as [d|] eqn:Hd; [|eauto].
    destruct k as [|k]; [injection Hk as ->; congruence|].
    apply (IH _ _ k assetId Hk). rewrite described_after_request. exact Hnone.
Qed.

(** What the loop returns has one more entry per id. *)
Lemma for_of_length ids :
  forall assets0 w assets w',
  for_of ids (push_asset env descriptor) assets0 w = (Return assets, w') ->
  length assets = (length assets0 + length ids)%nat.
Proof.
  induction ids as [|a0 ids IH]; intros assets0 w assets w' Hrun.
  - cbn in Hrun. injection Hrun as <- _. cbn. lia.
  - cbn [for_of] in Hrun. unfold bind at 1 in Hrun. rewrite push_asset_run in Hrun.
    destruct (described env w descriptor 0 a0) as [d|]; [|discriminate].
    apply IH in Hrun. rewrite Hrun, length_app. cbn. lia.
Qed.

End Resolution.

(** What each operation builds from a fetched asset, field by field. *)

Lemma fetched_asset_inv env w i asset :
  fetched_asset env w i = Some asset ->
  exists result,
    answer (served env w i) = Return result /\
    member result "asset" = Some asset /\
    nullish asset = false.
Proof.
  unfold fetched_asset.
  destruct (answer (served env w i)) as [result| |]; try discriminate.
  destruct (member result "asset") as [v|] eqn:Hm; [|discriminate].
  intros H. exists result. split; [reflexivity|].
  destruct v; try discriminate; injection H as <-; split; solve [exact Hm|reflexivity].
Qed.

Lemma described_txt2img env w i assetId asset :
  fetched_asset env w i = Some asset ->
  described env w txt2img_descriptor i assetId =
    Some (VObj [("id", assetId);
                ("url", opt_member asset "url");
                ("width", opt_member (opt_member asset "properties") "width");
                ("height", opt_member (opt_member asset "properties") "height")]).
Proof.
  intros H. destruct (fetched_asset_inv env w i asset H) as (result & Ha & Hm & Hd).
  unfold described, txt2img_descriptor. rewrite Ha, Hm. cbn [mbind option_bind].
  rewrite !(member_defined asset) by exact Hd. reflexivity.
Qed.

Lemma described_img2img env w i assetId asset :
  fetched_asset env w i = Some asset ->
  described env w img2img_descriptor i assetId =
    Some (VObj [("id", assetId); ("url", opt_member asset "url")]).
Proof.
  intros H. destruct (fetched_asset_inv env w i asset H) as (result & Ha & Hm & Hd).
  unfold described, img2img_descriptor. rewrite Ha, Hm. cbn [mbind option_bind].
  rewrite !(member_defined asset) by exact Hd. reflexivity.
Qed.

Lemma described_remove_background env w i original assetId asset :
  fetched_asset env w i = Some asset ->
  described env w (remove_background_payload original) i assetId =
    Some (VObj [("success", VBool true);
                ("originalAssetId", original);
                ("newAssetId", assetId);
                ("url", opt_member asset "url")]).
Proof.
  intros H. destruct (fetched_asset_inv env w i asset H) as (result & Ha & Hm & Hd).
  unfold described, remove_background_payload. rewrite Ha, Hm. cbn [mbind option_bind].
  rewrite !(member_defined asset) by exact Hd. reflexivity.
Qed.

Lemma described_upscale env w i original assetId asset :
  fetched_asset env w i = Some asset ->
  described env w (upscale_payload original) i assetId =
    Some (VObj [("success", VBool true);
                ("originalAssetId", original);
                ("newAssetId", assetId);
                ("url", opt_member asset "url");
                ("width", opt_member (opt_member asset "properties") "width");
                ("height", opt_member (opt_member asset "properties") "height")]).
Proof.
  intros H. destruct (fetched_asset_inv env w i asset H) as (result & Ha & Hm & Hd).
  unfold described, upscale_payload. rewrite Ha, Hm. cbn [mbind option_bind].
  rewrite !(member_defined asset) by exact Hd. reflexivity.
Qed.

(** C5. For every ordered sequence of output ids each of which is
    answered with an asset, resolution sends one request
    [GET /assets/id] per id, in the order of the ids, and returns one
    descriptor per id in exactly that order: entry [i] is made of id [i]
    and of the asset in answer [i].  In [txt2img] it holds the id, the
    asset's [url] and the [width] and [height] of its [properties]; in
    [img2img] the id and the asset's [url]. *)
Theorem resolve_preserves_order env ids w :
  (forall i assetId, ids !! i = Some assetId -> is_Some (fetched_asset env w i)) ->
  exists assets w' assets2 w2',
    for_of ids (push_asset env txt2img_descriptor) [] w = (Return assets, w') /\
    for_of ids (push_asset env img2img_descriptor) [] w = (Return assets2, w2') /\
    sent w (for_of ids (push_asset env txt2img_descriptor) []) =
      map (fun assetId => options env GET (Assets assetId) null) ids /\
    sent w (for_of ids (push_asset env img2img_descriptor) []) =
      map (fun assetId => options env GET (Assets assetId) null) ids /\
    length assets = length ids /\
    length assets2 = length ids /\
    forall i assetId asset,
      ids !! i = Some assetId ->
      fetched_asset env w i = Some asset ->
      assets !! i =
        Some (VObj [("id", assetId);
                    ("url", opt_member asset "url");
                    ("width", opt_member (opt_member asset "properties") "width");
                    ("height", opt_member (opt_member asset "properties") "height")]) /\
      assets2 !! i =
        Some (VObj [("id", assetId); ("url", opt_member asset "url")]).
Proof.
  intros Hall.
  destruct (for_of_resolves env txt2img_descriptor ids [] w)
    as (assets & w' & Hrun & Hwire & Hlook).
  { intros i assetId Hi. destruct (Hall i assetId Hi) as [asset Hasset].
    rewrite (described_txt2img env w i assetId asset Hasset). eauto. }
  destruct (for_of_resolves env img2img_descriptor ids [] w)
    as (assets2 & w2' & Hrun2 & Hwire2 & Hlook2).
  { intros i assetId Hi. destruct (Hall i assetId Hi) as [asset Hasset].
    rewrite (described_img2img env w i assetId asset Hasset). eauto. }
  cbn [app] in Hrun, Hrun2.
  exists assets, w', assets2, w2'.
  split; [exact Hrun|]. split; [exact Hrun2|].
  split; [unfold sent; rewrite Hrun; cbn [snd]; rewrite Hwire; apply drop_app_length|].
  split; [unfold sent; rewrite Hrun2; cbn [snd]; rewrite Hwire2; apply drop_app_length|].
  split; [apply for_of_length in Hrun; exact Hrun|].
  split; [apply for_of_length in Hrun2; exact Hrun2|].
  intros i assetId asset Hi Hasset. split.
  - rewrite Hlook, Hi. cbn [mbind option_bind].
    apply described_txt2img, Hasset.
  - rewrite Hlook2, Hi. cbn [mbind option_bind].
    apply described_img2img, Hasset.
Qed.


(** ** The log of requests only grows *)

Section Growth.

Variable env : Env.

Lemma grows_pure {A} (o : Outcome A) : grows (fun w => (o, w)).
Proof. intros w. exists []. cbn. rewrite app_nil_r. reflexivity. Qed.

Lemma grows_ret {A} (a : A) : grows (ret a).
Proof. apply grows_pure. Qed.

Lemma grows_throw {A} e : grows (@throw A e).
Proof. apply grows_pure. Qed.

Lemma grows_unfinished {A} : grows (@unfinished A).
Proof. apply grows_pure. Qed.

Lemma grows_checked {A} (o : option A) : grows (checked o).
Proof. destruct o; apply grows_pure. Qed.

Lemma grows_Date_now : grows Date_now.
Proof. intros w. exists []. cbn. rewrite app_nil_r. reflexivity. Qed.

Lemma grows_setTimeout ms : grows (setTimeout env ms).
Proof. intros w. exists []. cbn. rewrite app_nil_r. reflexivity. Qed.

Lemma grows_bind {A B} (m : M A) (k : A -> M B) :
  grows m -> (forall a, grows (k a)) -> grows (bind m k).
Proof.
  intros Hm Hk w. unfold bind.
  destruct (Hm w) as [l Hl].
  destruct (m w) as [[a|e|] w1]; cbn [snd] in *; [|eauto..].
  destruct (Hk a w1) as [l' Hl'].
  exists (l ++ l'). rewrite Hl', Hl, app_assoc. reflexivity.
Qed.

Lemma grows_scenarioRequest method endpoint body :
  grows (scenarioRequest env method endpoint body).
Proof. intros w. rewrite scenarioRequest_answer. eexists. reflexivity. Qed.

Ltac grow :=
  repeat first
    [ apply grows_ret | apply grows_throw | apply grows_unfinished
    | apply grows_checked | apply grows_Date_now | apply grows_setTimeout
    | apply grows_scenarioRequest | assumption
    | apply grows_bind; [|intro]
    | match goal with |- grows (if ?b then _ else _) => destruct b end ].

Lemma grows_waitForJob_loop fuel jobId maxWaitMs startTime :
  grows (waitForJob_loop env fuel jobId maxWaitMs startTime).
Proof. induction fuel as [|fuel IH]; cbn [waitForJob_loop]; grow. Qed.

Lemma grows_waitForJob fuel jobId maxWaitMs :
  grows (waitForJob env fuel jobId maxWaitMs).
Proof. unfold waitForJob. grow. apply grows_waitForJob_loop. Qed.

Lemma grows_for_of descriptor ids :
  forall assets, grows (for_of ids (push_asset env descriptor) assets).
Proof.
  induction ids as [|assetId ids IH]; intros assets; cbn [for_of]; [grow|].
  apply grows_bind; [unfold push_asset; grow|]. intros assets'. apply IH.
Qed.

(** The first request of a handler that begins with [scenarioRequest]. *)
Lemma submission_first {B} w method endpoint body (k : Value -> M B) :
  (forall v, grows (k v)) ->
  submission w (bind (scenarioRequest env method endpoint body) k) =
    Some (options env method endpoint body).
Proof.
  intros Hk. unfold submission, bind. rewrite scenarioRequest_answer.
  destruct (answer (served env w 0)) as [v|e|]; cbn [snd].
  - destruct (Hk v (after_request env w (options env method endpoint body))) as [l Hl].
    rewrite Hl. unfold after_request. cbn [wire].
    rewrite <- app_assoc. apply list_lookup_middle. reflexivity.
  - unfold after_request. cbn [wire]. apply list_lookup_middle. reflexivity.
  - unfold after_request. cbn [wire]. apply list_lookup_middle. reflexivity.
Qed.

(** Every operation opens with its submission request. *)
Lemma call_tool_submission fuel w c :
  submission w (call_tool env fuel c) = Some (submit_request env c).
Proof.
  destruct c as [a|a|a|a]; cbn [call_tool submit_request];
    [unfold txt2img|unfold img2img|unfold remove_background|unfold upscale];
    apply submission_first; intros v; grow;
    first [apply grows_waitForJob_loop | apply grows_for_of].
Qed.

End Growth.

(** C8. The provider client sends its request once.  When the response
    has a 2xx status, its result is the JSON value the body parses to; when
    the status is not 2xx, it throws the error made of the status code and
    the raw text of the body.  In both cases the one request is all it
    sends: there is no retry. *)
Theorem scenarioRequest_one_attempt env method endpoint body w r :
  outcome (served env w 0) = Responded r ->
  (200 <= status r <= 299 ->
   forall v, json r = Some v ->
   scenarioRequest env method endpoint body w =
     (Return v, after_request env w (options env method endpoint body))) /\
  (~ 200 <= status r <= 299 ->
   scenarioRequest env method endpoint body w =
     (Throw (ScenarioApiError (status r) (text r)),
      after_request env w (options env method endpoint body))) /\
  sent w (scenarioRequest env method endpoint body) =
    [options env method endpoint body].
Proof.
  intros Hr. rewrite scenarioRequest_answer. unfold answer. rewrite Hr.
  split; [|split].
  - intros Hs v Hv. unfold ok.
    destruct (Z.leb_spec 200 (status r)); [|lia].
    destruct (Z.leb_spec (status r) 299); [|lia].
    cbn. rewrite Hv. reflexivity.
  - intros Hs. unfold ok.
    destruct (Z.leb_spec 200 (status r)); [|reflexivity].
    destruct (Z.leb_spec (status r) 299); [lia|reflexivity].
  - unfold sent. rewrite scenarioRequest_answer.
    unfold after_request. cbn [snd wire]. apply drop_app_length.
Qed.

(** ** Numeric parameters *)

Lemma num_le_refl a : num_le a a.
Proof. destruct a; cbn; try reflexivity. apply Qle_bool_iff, Qle_refl. Qed.

Lemma num_le_total a b : ~ num_le a b -> num_le b a.
Proof.
  unfold num_le. destruct a, b; cbn; try tauto.
  rewrite !Qle_bool_iff. intros H. apply Qlt_le_weak, Qnot_le_lt, H.
Qed.

Lemma num_le_trans a b c : num_le a b -> num_le b c -> num_le a c.
Proof.
  unfold num_le. destruct a, b, c; cbn; try tauto; try discriminate.
  rewrite !Qle_bool_iff. apply Qle_trans.
Qed.

Lemma num_le_antisym a b : num_le a b -> num_le b a -> num_eq a b.
Proof.
  unfold num_le, num_eq. destruct a, b; cbn; try tauto; try discriminate.
  rewrite !Qle_bool_iff, Qeq_bool_iff. apply Qle_antisym.
Qed.

(** [Math.min(hi, Math.max(lo, x))] clamps [x] to the range from [lo] to
    [hi], for bounds [lo < hi]. *)
Lemma Math_clamp lo hi x :
  ~ num_le hi lo ->
  clamped lo hi x (Math_min hi (Math_max lo x)).
Proof.
  intros Hlh. pose proof (num_le_total _ _ Hlh) as Hle.
  unfold clamped, Math_min, Math_max.
  destruct (num_leb lo x) eqn:Hlo.
  - destruct (num_leb hi x) eqn:Hhi.
    + repeat split; auto using num_le_refl.
      * intros _ Hx. apply num_le_antisym; assumption.
      * intros H. destruct H. exact Hlo.
    + assert (Hx : num_le x hi)
        by (apply num_le_total; unfold num_le; congruence).
      repeat split; auto using num_le_refl.
      * intros _ _. apply num_le_antisym; apply num_le_refl.
      * intros H. destruct H. exact Hlo.
      * intros H. destruct H. exact Hx.
  - assert (Hxl : num_le x lo)
      by (apply num_le_total; unfold num_le; congruence).
    destruct (num_leb hi lo) eqn:Hhl; [destruct Hlh; exact Hhl|].
    repeat split; auto using num_le_refl.
    + intros H. unfold num_le in H. congruence.
    + intros H. destruct H. eapply num_le_trans; eassumption.
Qed.

Lemma submitted_field_body env fuel w c k :
  submitted_field env fuel w c k =
    submittedBody ← body (submit_request env c); member submittedBody k.
Proof. unfold submitted_field. rewrite call_tool_submission. reflexivity. Qed.

(** C7. Numeric parameters are clamped by the handler, in the body of the
    submission request, whatever the input: [txt2img] submits [numSamples]
    clamped to the range 1..4 (7 is submitted as 4, 0 as 1), [img2img]
    submits [strength] clamped to the range 0..1, and [upscale] submits a
    [scalingFactor] that is 2 or 4. *)
Theorem numeric_parameters_clamped env fuel w :
  (forall a, exists n,
     submitted_field env fuel w (CallTxt2img a) "numSamples" = Some (VNum n) /\
     clamped (of_Z 1) (of_Z 4) (default (of_Z 1) (t2i_numSamples a)) n) /\
  (forall a,
     submitted_field env fuel w (CallTxt2img (with_numSamples a (of_Z 7))) "numSamples"
       = Some (VNum (of_Z 4)) /\
     submitted_field env fuel w (CallTxt2img (with_numSamples a (of_Z 0))) "numSamples"
       = Some (VNum (of_Z 1))) /\
  (forall a, exists s,
     submitted_field env fuel w (CallImg2img a) "strength" = Some (VNum s) /\
     clamped (of_Z 0) (of_Z 1) (default (Finite (3 # 4)) (i2i_strength a)) s) /\
  (forall a,
     submitted_field env fuel w (CallUpscale a) "scalingFactor" = Some (VNum (of_Z 2)) \/
     submitted_field env fuel w (CallUpscale a) "scalingFactor" = Some (VNum (of_Z 4))).
Proof.
  repeat split.
  - intros a. eexists. split.
    + rewrite submitted_field_body. cbn [submit_request]. unfold txt2img_body.
      destruct (truthy (t2i_negativePrompt a)); reflexivity.
    + apply Math_clamp. discriminate.
  - rewrite submitted_field_body. cbn [submit_request]. unfold txt2img_body.
    destruct (truthy _); reflexivity.
  - rewrite submitted_field_body. cbn [submit_request]. unfold txt2img_body.
    destruct (truthy _); reflexivity.
  - intros a. eexists. split.
    + rewrite submitted_field_body. reflexivity.
    + apply Math_clamp. discriminate.
  - intros a. rewrite submitted_field_body. cbn [submit_request]. unfold upscale_body.
    destruct (num_eqb _ _); [right|left]; reflexivity.
Qed.

(** C10. For every numeric [scalingFactor] given to [upscale], the
    submitted body's [scalingFactor] is 4 when the input equals 4 and 2 for
    every other number; an omitted input is submitted as 2. *)
Theorem upscale_scaling_factor env fuel w a :
  submitted_field env fuel w (CallUpscale a) "scalingFactor" =
    Some (VNum (match up_scalingFactor a with
                | Some (Finite q) =>
                    if Qeq_dec q (inject_Z 4) then of_Z 4 else of_Z 2
                | Some _ => of_Z 2
                | None => of_Z 2
                end)).
Proof.
  rewrite submitted_field_body. cbn [submit_request]. unfold upscale_body.
  destruct (up_scalingFactor a) as [[|q|]|]; cbn; try reflexivity.
  destruct (Qeq_dec q (inject_Z 4)) as [Heq|Hne];
    destruct (Qeq_bool q (inject_Z 4)) eqn:E; try reflexivity.
  - apply Qeq_bool_iff in Heq. congruence.
  - apply Qeq_bool_iff in E. contradiction.
Qed.

(** ** The pipeline of an operation: submit, wait, resolve *)

Section Pipeline.

Variable env : Env.

(** The common opening of the four handlers - submit, read the job id,
    wait - when the job succeeds after [p] non-terminal statuses. *)
Lemma submit_and_wait {B} w endpoint submittedBody maxWaitMs fuel p jobId job
    (k : Value -> M B) :
  let w1 := after_request env w (options env POST endpoint submittedBody) in
  (exists result submitted,
      answer (served env w 0) = Return result /\
      member result "job" = Some submitted /\
      member submitted "jobId" = Some jobId) ->
  (forall i, (i < p)%nat -> observe (served env w1 i) = Running) ->
  observe (served env w1 p) = Succeeded job ->
  (forall i, (i <= p)%nat -> poll_clock env w1 i - clock w1 < default 120000 maxWaitMs) ->
  (p < fuel)%nat ->
  (let! result := scenarioRequest env POST endpoint submittedBody in
   let! submitted := checked (member result "job") in
   let! jobId := checked (member submitted "jobId") in
   let! job := waitForJob env fuel jobId maxWaitMs in
   k job) w
  = k job (after_poll env w1 jobId p).
Proof.
  intros w1 (result & submitted & Hans & Hjob & Hid) Hrun Hok Hclk Hfuel.
  unfold bind at 1. rewrite scenarioRequest_answer, Hans.
  unfold bind at 1. rewrite Hjob. cbn [checked ret].
  unfold bind at 1. rewrite Hid. cbn [checked ret].
  unfold bind at 1. fold w1.
  assert (Hwait : waitForJob env fuel jobId maxWaitMs w1 =
                  (Return job, after_poll env w1 jobId p)).
  { change (waitForJob env fuel jobId maxWaitMs)
      with (waitForJob env fuel jobId (Some (default 120000 maxWaitMs))).
    rewrite (loop_settles env w1 jobId _ p fuel) by assumption.
    rewrite Hok. reflexivity. }
  rewrite Hwait. reflexivity.
Qed.

Lemma output_ids_inv job ids :
  output_ids job = Some ids ->
  exists metadata assetIds,
    member job "metadata" = Some metadata /\
    member metadata "assetIds" = Some assetIds /\
    iterate assetIds = Some ids.
Proof.
  unfold output_ids. intros H.
  destruct (member job "metadata") as [metadata|] eqn:Hm; [|discriminate].
  cbn in H.
  destruct (member metadata "assetIds") as [assetIds|] eqn:Ha; [|discriminate].
  cbn in H. exists metadata, assetIds. auto.
Qed.

(** On something iterable, [x[0]] is the first item visited, or
    [undefined]. *)
Lemma first_item_iterate assetIds ids :
  iterate assetIds = Some ids ->
  first_item assetIds = Some (hd undefined ids).
Proof.
  destruct assetIds as [| | | |s|items|]; cbn; try discriminate.
  - intros [= <-]. destruct s; reflexivity.
  - intros [= <-]. reflexivity.
Qed.

Lemma txt2img_descriptor_id assetId assetResult d :
  txt2img_descriptor assetId assetResult = Some d -> opt_member d "id" = assetId.
Proof.
  unfold txt2img_descriptor. intros H.
  destruct (member assetResult "asset") as [asset|]; [|discriminate]. cbn in H.
  destruct (member asset "url"); [|discriminate]. cbn in H.
  destruct (member asset "properties"); [|discriminate]. cbn in H.
  injection H as <-. reflexivity.
Qed.

Lemma img2img_descriptor_id assetId assetResult d :
  img2img_descriptor assetId assetResult = Some d -> opt_member d "id" = assetId.
Proof.
  unfold img2img_descriptor. intros H.
  destruct (member assetResult "asset") as [asset|]; [|discriminate]. cbn in H.
  destruct (member asset "url"); [|discriminate]. cbn in H.
  injection H as <-. reflexivity.
Qed.

Lemma remove_background_payload_ids assetId newAssetId assetResult d :
  remove_background_payload assetId newAssetId assetResult = Some d ->
  descriptor_ids (TextContent d) = [newAssetId].
Proof.
  unfold remove_background_payload. intros H.
  destruct (member assetResult "asset") as [asset|]; [|discriminate]. cbn in H.
  destruct (member asset "url"); [|discriminate]. cbn in H.
  injection H as <-. reflexivity.
Qed.

Lemma upscale_payload_ids assetId newAssetId assetResult d :
  upscale_payload assetId newAssetId assetResult = Some d ->
  descriptor_ids (TextContent d) = [newAssetId].
Proof.
  unfold upscale_payload. intros H.
  destruct (member assetResult "asset") as [asset|]; [|discriminate]. cbn in H.
  destruct (member asset "url"); [|discriminate]. cbn in H.
  destruct (member asset "properties"); [|discriminate]. cbn in H.
  injection H as <-. reflexivity.
Qed.

(** The ids carried by the descriptors of a fully resolved list. *)
Lemma resolved_descriptor_ids descriptor w ids assets :
  (forall assetId assetResult d,
     descriptor assetId assetResult = Some d -> opt_member d "id" = assetId) ->
  (forall i assetId, ids !! i = Some assetId ->
     is_Some (described env w descriptor i assetId)) ->
  (forall i, assets !! i = ids !! i ≫= described env w descriptor i) ->
  map (fun d => opt_member d "id") assets = ids.
Proof.
  intros Hid Hall Hlook. apply list_eq. intros i.
  rewrite list_lookup_fmap, Hlook.
  destruct (ids !! i) as [assetId|] eqn:Hi; [|reflexivity].
  cbn. destruct (Hall i assetId Hi) as [d Hd]. rewrite Hd. cbn.
  unfold described in Hd.
  destruct (answer (served env w i)) as [assetResult| |]; try discriminate.
  f_equal. eapply Hid. exact Hd.
Qed.

Lemma asset_fetches_app l1 l2 :
  asset_fetches (l1 ++ l2) = asset_fetches l1 ++ asset_fetches l2.
Proof. apply omap_app. Qed.

Lemma asset_fetches_polls n jobId :
  asset_fetches (replicate n (options env GET (Jobs jobId) null)) = [].
Proof. induction n as [|n IH]; [reflexivity|exact IH]. Qed.

Lemma asset_fetches_assets ids :
  asset_fetches (map (fun assetId => options env GET (Assets assetId) null) ids) = ids.
Proof. induction ids as [|a ids IH]; [reflexivity|]. cbn. f_equal. exact IH. Qed.

Lemma asset_fetches_submit c : asset_fetches [submit_request env c] = [].
Proof. destruct c; reflexivity. Qed.

(** The requests of a run that submitted [c], polled [S p] times and then
    fetched the assets [ids]. *)
Lemma asset_fetches_pipeline w c jobId p ids (wire' : list Request) :
  wire' =
    wire (after_poll env (after_request env w (submit_request env c)) jobId p) ++
    map (fun assetId => options env GET (Assets assetId) null) ids ->
  asset_fetches (drop (length (wire w)) wire') = ids.
Proof.
  intros ->. unfold after_poll, after_request. cbn [wire].
  rewrite <- !app_assoc, drop_app_length, !asset_fetches_app.
  rewrite asset_fetches_submit, asset_fetches_polls, asset_fetches_assets.
  reflexivity.
Qed.

(** The run of an operation whose job succeeds but one of whose resolved
    ids cannot be fetched: the handler throws, whatever was fetched
    before. *)
Lemma call_tool_failed_fetch c w fuel p jobId job ids k assetId :
  job_succeeds env w c fuel p jobId job ->
  output_ids job = Some ids ->
  resolved c ids !! k = Some assetId ->
  described env
    (after_poll env (after_request env w (submit_request env c)) jobId p)
    (descriptor_of c) k assetId = None ->
  exists e w', call_tool env fuel c w = (Throw e, w').
Proof.
  intros (Hsub & Hrun & Hok & Hclk & Hfuel) Hids Hk Hnone.
  destruct (output_ids_inv job ids Hids) as (metadata & assetIds & Hm & Ha & Hit).
  destruct c as [a|a|a|a]; cbn [call_tool submit_request deadline_of resolved descriptor_of] in *.
  - unfold txt2img. cbv zeta.
    erewrite submit_and_wait by eassumption.
    unfold bind at 1. rewrite Hm. cbn [checked ret].
    unfold bind at 1. rewrite Ha. cbn [checked ret].
    unfold bind at 1. rewrite Hit. cbn [checked ret].
    destruct (for_of_any_failure env txt2img_descriptor ids [] _ k assetId Hk Hnone)
      as (e & w' & Hfor).
    unfold bind at 1. rewrite Hfor. eauto.
  - unfold img2img. cbv zeta.
    erewrite submit_and_wait by eassumption.
    unfold bind at 1. rewrite Hm. cbn [checked ret].
    unfold bind at 1. rewrite Ha. cbn [checked ret].
    unfold bind at 1. rewrite Hit. cbn [checked ret].
    destruct (for_of_any_failure env img2img_descriptor ids [] _ k assetId Hk Hnone)
      as (e & w' & Hfor).
    unfold bind at 1. rewrite Hfor. eauto.
  - destruct k as [|k]; [|discriminate]. injection Hk as <-.
    unfold remove_background. cbv zeta.
    erewrite submit_and_wait by eassumption.
    unfold bind at 1. rewrite Hm. cbn [checked ret].
    unfold bind at 1. rewrite Ha. cbn [checked ret].
    unfold bind at 1. rewrite (first_item_iterate _ _ Hit). cbn [checked ret].
    unfold described in Hnone.
    unfold bind at 1. rewrite scenarioRequest_answer.
    match type of Hnone with
    | context [answer ?x] => destruct (answer x) as [assetResult|e|] eqn:Hans
    end; [|eauto|destruct (answer_finished _ Hans)].
    unfold bind at 1. rewrite Hnone. cbn [checked throw]. eauto.
  - destruct k as [|k]; [|discriminate]. injection Hk as <-.
    unfold upscale. cbv zeta.
    erewrite submit_and_wait by eassumption.
    unfold bind at 1. rewrite Hm. cbn [checked ret].
    unfold bind at 1. rewrite Ha. cbn [checked ret].
    unfold bind at 1. rewrite (first_item_iterate _ _ Hit). cbn [checked ret].
    unfold described in Hnone.
    unfold bind at 1. rewrite scenarioRequest_answer.
    match type of Hnone with
    | context [answer ?x] => destruct (answer x) as [assetResult|e|] eqn:Hans
    end; [|eauto|destruct (answer_finished _ Hans)].
    unfold bind at 1. rewrite Hnone. cbn [checked throw]. eauto.
Qed.

End Pipeline.

(** C1, amended. For every orchestrated operation whose submitted job
    completes with status [success], the operation reads the output ids
    from the terminal job's metadata.  [txt2img] and [img2img] resolve all
    of them and return the complete, ordered set of output descriptors: one
    descriptor per id, in the order of the ids, each made of its id and of
    the asset fetched for it.  [remove_background] and [upscale] resolve
    the first id only ([assetIds[0]]) and return the one descriptor of that
    id. *)
Theorem call_tool_resolves env c w fuel p jobId job metadata ids :
  job_succeeds env w c fuel p jobId job ->
  member job "metadata" = Some metadata ->
  member metadata "assetIds" = Some (VArr ids) ->
  (forall i assetId, resolved c ids !! i = Some assetId ->
     is_Some (fetched_asset env (at_resolution env w c jobId p) i)) ->
  exists r w',
    call_tool env fuel c w = (Return r, w') /\
    descriptor_ids r = resolved c ids /\
    asset_fetches (sent w (call_tool env fuel c)) = resolved c ids /\
    match c with
    | CallTxt2img _ =>
        exists assets,
          r = TextContent (VObj [("success", VBool true); ("assets", VArr assets)]) /\
          length assets = length ids /\
          forall i assetId asset,
            ids !! i = Some assetId ->
            fetched_asset env (at_resolution env w c jobId p) i = Some asset ->
            assets !! i =
              Some (VObj [("id", assetId);
                          ("url", opt_member asset "url");
                          ("width", opt_member (opt_member asset "properties") "width");
                          ("height", opt_member (opt_member asset "properties") "height")])
    | CallImg2img _ =>
        exists assets,
          r = TextContent (VObj [("success", VBool true); ("assets", VArr assets)]) /\
          length assets = length ids /\
          forall i assetId asset,
            ids !! i = Some assetId ->
            fetched_asset env (at_resolution env w c jobId p) i = Some asset ->
            assets !! i =
              Some (VObj [("id", assetId); ("url", opt_member asset "url")])
    | CallRemoveBackground a =>
        forall asset,
          fetched_asset env (at_resolution env w c jobId p) 0 = Some asset ->
          r = TextContent
                (VObj [("success", VBool true);
                       ("originalAssetId", rb_assetId a);
                       ("newAssetId", hd undefined ids);
                       ("url", opt_member asset "url")])
    | CallUpscale a =>
        forall asset,
          fetched_asset env (at_resolution env w c jobId p) 0 = Some asset ->
          r = TextContent
                (VObj [("success", VBool true);
                       ("originalAssetId", up_assetId a);
                       ("newAssetId", hd undefined ids);
                       ("url", opt_member asset "url");
                       ("width", opt_member (opt_member asset "properties") "width");
                       ("height", opt_member (opt_member asset "properties") "height")])
    end.
Proof.
  intros (Hsub & Hrun & Hok & Hclk & Hfuel) Hm Ha Hall.
  unfold at_resolution in *.
  destruct c as [a|a|a|a]; cbn [submit_request deadline_of resolved] in *.
  - assert (Hdesc : forall i assetId, ids !! i = Some assetId ->
              is_Some (described env
                         (after_poll env
                            (after_request env w
                               (options env POST GenerateTxt2img (txt2img_body a)))
                            jobId p)
                         txt2img_descriptor i assetId)).
    { intros i assetId Hi. destruct (Hall i assetId Hi) as [asset Hasset].
      rewrite (described_txt2img _ _ _ _ _ Hasset). eauto. }
    destruct (for_of_resolves env txt2img_descriptor ids [] _ Hdesc)
      as (assets & w' & Hfor & Hwire & Hlook).
    cbn [app] in Hfor.
    assert (Hcall : call_tool env fuel (CallTxt2img a) w =
                    (Return (TextContent
                               (VObj [("success", VBool true); ("assets", VArr assets)])),
                     w')).
    { cbn [call_tool]. unfold txt2img. cbv zeta.
      erewrite submit_and_wait by eassumption.
      unfold bind at 1. rewrite Hm. cbn [checked ret].
      unfold bind at 1. rewrite Ha. cbn [checked ret].
      unfold bind at 1. cbn [iterate checked ret].
      unfold bind at 1. rewrite Hfor. reflexivity. }
    eexists _, w'. split; [exact Hcall|]. split; [|split].
    + cbn. eapply resolved_descriptor_ids; eauto using txt2img_descriptor_id.
    + unfold sent. rewrite Hcall. cbn [snd].
      exact (asset_fetches_pipeline env w (CallTxt2img a) jobId p ids _ Hwire).
    + exists assets. split; [reflexivity|].
      split; [apply for_of_length in Hfor; exact Hfor|].
      intros i assetId asset Hi Hasset.
      rewrite Hlook, Hi. cbn [mbind option_bind].
      apply described_txt2img, Hasset.
  - assert (Hdesc : forall i assetId, ids !! i = Some assetId ->
              is_Some (described env
                         (after_poll env
                            (after_request env w
                               (options env POST GenerateImg2img (img2img_body a)))
                            jobId p)
                         img2img_descriptor i assetId)).
    { intros i assetId Hi. destruct (Hall i assetId Hi) as [asset Hasset].
      rewrite (described_img2img _ _ _ _ _ Hasset). eauto. }
    destruct (for_of_resolves env img2img_descriptor ids [] _ Hdesc)
      as (assets & w' & Hfor & Hwire & Hlook).
    cbn [app] in Hfor.
    assert (Hcall : call_tool env fuel (CallImg2img a) w =
                    (Return (TextContent
                               (VObj [("success", VBool true); ("assets", VArr assets)])),
                     w')).
    { cbn [call_tool]. unfold img2img. cbv zeta.
      erewrite submit_and_wait by eassumption.
      unfold bind at 1. rewrite Hm. cbn [checked ret].
      unfold bind at 1. rewrite Ha. cbn [checked ret].
      unfold bind at 1. cbn [iterate checked ret].
      unfold bind at 1. rewrite Hfor. reflexivity. }
    eexists _, w'. split; [exact Hcall|]. split; [|split].
    + cbn. eapply resolved_descriptor_ids; eauto using img2img_descriptor_id.
    + unfold sent. rewrite Hcall. cbn [snd].
      exact (asset_fetches_pipeline env w (CallImg2img a) jobId p ids _ Hwire).
    + exists assets. split; [reflexivity|].
      split; [apply for_of_length in Hfor; exact Hfor|].
      intros i assetId asset Hi Hasset.
      rewrite Hlook, Hi. cbn [mbind option_bind].
      apply described_img2img, Hasset.
  - destruct (Hall 0%nat _ eq_refl) as [asset Hasset].
    pose proof (described_remove_background _ _ _ (rb_assetId a) (hd undefined ids) _ Hasset)
      as Hd.
    destruct (fetched_asset_inv _ _ _ _ Hasset) as (result & Hans & _ & _).
    unfold described in Hd. rewrite Hans in Hd.
    assert (Hcall : call_tool env fuel (CallRemoveBackground a) w =
                    (Return (TextContent
                               (VObj [("success", VBool true);
                                      ("originalAssetId", rb_assetId a);
                                      ("newAssetId", hd undefined ids);
                                      ("url", opt_member asset "url")])),
                     after_request env
                       (after_poll env
                          (after_request env w
                             (options env POST EditRemoveBackground
                                (remove_background_body a)))
                          jobId p)
                       (options env GET (Assets (hd undefined ids)) null))).
    { cbn [call_tool]. unfold remove_background. cbv zeta.
      erewrite submit_and_wait by eassumption.
      unfold bind at 1. rewrite Hm. cbn [checked ret].
      unfold bind at 1. rewrite Ha. cbn [checked ret].
      unfold bind at 1. cbn [first_item checked ret].
      unfold bind at 1. rewrite scenarioRequest_answer, Hans.
      unfold bind at 1. rewrite Hd. reflexivity. }
    eexists _, _. split; [exact Hcall|]. split; [reflexivity|]. split.
    + unfold sent. rewrite Hcall. cbn [snd].
      exact (asset_fetches_pipeline env w (CallRemoveBackground a) jobId p
               [hd undefined ids] _ eq_refl).
    + intros asset' Hasset'. rewrite Hasset in Hasset'. injection Hasset' as <-.
      reflexivity.
  - destruct (Hall 0%nat _ eq_refl) as [asset Hasset].
    pose proof (described_upscale _ _ _ (up_assetId a) (hd undefined ids) _ Hasset)
      as Hd.
    destruct (fetched_asset_inv _ _ _ _ Hasset) as (result & Hans & _ & _).
    unfold described in Hd. rewrite Hans in Hd.
    assert (Hcall : call_tool env fuel (CallUpscale a) w =
                    (Return (TextContent
                               (VObj [("success", VBool true);
                                      ("originalAssetId", up_assetId a);
                                      ("newAssetId", hd undefined ids);
                                      ("url", opt_member asset "url");
                                      ("width",
                                       opt_member (opt_member asset "properties") "width");
                                      ("height",
                                       opt_member (opt_member asset "properties") "height")])),
                     after_request env
                       (after_poll env
                          (after_request env w
                             (options env POST EditUpscale (upscale_body a)))
                          jobId p)
                       (options env GET (Assets (hd undefined ids)) null))).
    { cbn [call_tool]. unfold upscale. cbv zeta.
      erewrite submit_and_wait by eassumption.
      unfold bind at 1. rewrite Hm. cbn [checked ret].
      unfold bind at 1. rewrite Ha. cbn [checked ret].
      unfold bind at 1. cbn [first_item checked ret].
      unfold bind at 1. rewrite scenarioRequest_answer, Hans.
      unfold bind at 1. rewrite Hd. reflexivity. }
    eexists _, _. split; [exact Hcall|]. split; [reflexivity|]. split.
    + unfold sent. rewrite Hcall. cbn [snd].
      exact (asset_fetches_pipeline env w (CallUpscale a) jobId p
               [hd undefined ids] _ eq_refl).
    + intros asset' Hasset'. rewrite Hasset in Hasset'. injection Hasset' as <-.
      reflexivity.
Qed.

(** ** The session router *)

Module Routing.
Import Router.

Section Gateway.

Variable randomUUID : nat -> string.

(** Id generation is collision-free. *)
Hypothesis randomUUID_unique : Inj (=) (=) randomUUID.

Lemma route_known req st id t :
  mcp_session_id req = Some id ->
  sessions st !! id = Some t ->
  route req st = (t, st).
Proof. intros Hid Ht. unfold route, sessions_get. rewrite Hid. cbn. rewrite Ht. reflexivity. Qed.

Lemma route_unknown req st :
  sessions_get st (mcp_session_id req) = None ->
  route req st =
    (length (heap st),
     {| sessions := sessions st;
        heap := heap st ++ [{| sessionId := None |}];
        generated := generated st |}).
Proof. intros H. unfold route. rewrite H. reflexivity. Qed.

Lemma consistent_start : consistent randomUUID start.
Proof.
  split.
  - intros id t H. cbn in H. rewrite lookup_empty in H. discriminate.
  - intros t id H. cbn in H. discriminate.
Qed.

Lemma consistent_route req st :
  consistent randomUUID st -> consistent randomUUID (snd (route req st)).
Proof.
  intros [H1 H2]. unfold route.
  destruct (sessions_get st (mcp_session_id req)); cbn; [split; assumption|].
  split; cbn.
  - intros id t Ht. apply lookup_app_l_Some. apply H1. exact Ht.
  - intros t id Ht. apply lookup_app_Some in Ht as [Ht|[_ Ht]]; [eauto|].
    destruct (t - length (heap st))%nat; cbn in Ht; discriminate.
Qed.

(** The ids the generator has yet to give are not in the table. *)
Lemma later_id_fresh st k :
  consistent randomUUID st ->
  (generated st <= k)%nat ->
  sessions st !! randomUUID k = None.
Proof.
  intros [H1 H2] Hk.
  destruct (sessions st !! randomUUID k) as [t|] eqn:Ht; [|reflexivity].
  apply H1, H2 in Ht. destruct Ht as (k' & Hk' & Heq).
  apply randomUUID_unique in Heq. lia.
Qed.

Lemma next_id_fresh st :
  consistent randomUUID st ->
  sessions st !! randomUUID (generated st) = None.
Proof. intros Hc. apply later_id_fresh; [exact Hc|lia]. Qed.

(** What [handleRequest] does when it opens a session. *)
Lemma handleRequest_opens t req st :
  heap st !! t = Some {| sessionId := None |} ->
  initializes req = true ->
  handleRequest randomUUID t req st =
    {| sessions := <[randomUUID (generated st) := t]> (sessions st);
       heap := <[t := {| sessionId := Some (randomUUID (generated st)) |}]> (heap st);
       generated := S (generated st) |}.
Proof. intros Ht Hi. unfold handleRequest. rewrite Ht, Hi. reflexivity. Qed.

(** Otherwise it leaves the routing state alone. *)
Lemma handleRequest_idle t req st :
  heap st !! t <> Some {| sessionId := None |} \/ initializes req = false ->
  handleRequest randomUUID t req st = st.
Proof.
  intros H. unfold handleRequest.
  destruct (heap st !! t) as [[[id|]]|]; try reflexivity.
  destruct (initializes req); [|reflexivity].
  destruct H as [H|H]; [destruct H; reflexivity|discriminate].
Qed.

Lemma handleRequest_cases t req st :
  (heap st !! t = Some {| sessionId := None |} /\ initializes req = true) \/
  handleRequest randomUUID t req st = st.
Proof.
  destruct (heap st !! t) as [[[id|]]|] eqn:Ht;
    try (right; apply handleRequest_idle; left; rewrite Ht; congruence).
  destruct (initializes req) eqn:Hi; [left; auto|].
  right. apply handleRequest_idle. right. exact Hi.
Qed.

Lemma consistent_handleRequest t req st :
  consistent randomUUID st -> consistent randomUUID (handleRequest randomUUID t req st).
Proof.
  intros Hc.
  destruct (handleRequest_cases t req st) as [[Ht Hi]| ->]; [|exact Hc].
  rewrite handleRequest_opens by assumption.
  destruct Hc as [H1 H2]. split; cbn.
  - intros id t' Hl.
    destruct (decide (randomUUID (generated st) = id)) as [<-|Hne].
    + rewrite lookup_insert_eq in Hl. injection Hl as <-.
      apply list_lookup_insert_eq. eapply lookup_lt_Some, Ht.
    + rewrite lookup_insert_ne in Hl by assumption.
      apply H1 in Hl.
      rewrite list_lookup_insert_ne; [exact Hl|]. congruence.
  - intros t' id Hl.
    destruct (decide (t = t')) as [<-|Hne].
    + rewrite list_lookup_insert_eq in Hl by (eapply lookup_lt_Some, Ht).
      injection Hl as <-. exists (generated st). split; [lia|reflexivity].
    + rewrite list_lookup_insert_ne in Hl by assumption.
      destruct (H2 _ _ Hl) as (k & Hk & Hid). exists k. split; [lia|exact Hid].
Qed.

Lemma consistent_step st e :
  consistent randomUUID st -> consistent randomUUID (step randomUUID st e).
Proof.
  destruct e; cbn; [apply consistent_route|apply consistent_handleRequest].
Qed.

Lemma consistent_run es :
  forall st, consistent randomUUID st -> consistent randomUUID (run randomUUID es st).
Proof.
  induction es as [|e es IH]; intros st Hc; [exact Hc|].
  cbn. apply IH, consistent_step, Hc.
Qed.

Lemma reachable_consistent st :
  reachable randomUUID st -> consistent randomUUID st.
Proof. intros [es ->]. apply consistent_run, consistent_start. Qed.

(** No step replaces a registered transport. *)
Lemma step_keeps st e id t :
  consistent randomUUID st ->
  sessions st !! id = Some t ->
  sessions (step randomUUID st e) !! id = Some t.
Proof.
  intros Hc Hl. destruct e as [req|t' req]; cbn.
  - unfold route. destruct (sessions_get st (mcp_session_id req)); exact Hl.
  - destruct (handleRequest_cases t' req st) as [[Ht Hi]| ->]; [|exact Hl].
    rewrite handleRequest_opens by assumption. cbn.
    rewrite lookup_insert_ne; [exact Hl|].
    intros <-. rewrite next_id_fresh in Hl by assumption. discriminate.
Qed.

Lemma run_keeps es :
  forall st id t,
  consistent randomUUID st ->
  sessions st !! id = Some t ->
  sessions (run randomUUID es st) !! id = Some t.
Proof.
  induction es as [|e es IH]; intros st id t Hc Hl; [exact Hl|].
  cbn. apply IH; [apply consistent_step, Hc|apply step_keeps; assumption].
Qed.


(** A request without a registered session that opens one: its new
    transport ends up registered under the next generated id. *)
Lemma route_then_handle req st :
  sessions_get st (mcp_session_id req) = None ->
  initializes req = true ->
  heap st !! fst (route req st) = None /\
  sessions (handleRequest randomUUID (fst (route req st)) req (snd (route req st))) =
    <[randomUUID (generated st) := fst (route req st)]> (sessions st).
Proof.
  intros Hget Hinit. rewrite route_unknown by assumption. cbn [fst snd].
  split; [apply lookup_ge_None; lia|].
  rewrite handleRequest_opens; [reflexivity| |exact Hinit].
  cbn. apply list_lookup_middle. reflexivity.
Qed.


End Gateway.


End Routing.

(** * Concrete runs *)

Import Script.

(** The scenario of the specification: submit returns [j1]; the status is
    [pending], [pending], [success] with the output [a1]; [txt2img] returns
    the descriptor of [a1]. *)
Example txt2img_scenario :
  fst (txt2img scenario 10 a_prompt w0) =
    Return (TextContent
              (VObj [("success", VBool true);
                     ("assets",
                      VArr [VObj [("id", a1);
                                  ("url", VStr "https://x/a1.png");
                                  ("width", VNum (of_Z 1024));
                                  ("height", VNum (of_Z 1024))]])])).
Proof. vm_compute. reflexivity. Qed.

(** The timeout scenario of the specification: with the default deadline
    of 120000 ms and a job that stays pending, each pass taking 40 ms for
    the query and 2000 ms for the timer, the loop gives up at its 60th test
    of the clock, 120360 ms after it started; the error says 120000. *)
Example waitForJob_default_deadline :
  fst (waitForJob stalled 100 j1 None w0) = Throw (JobTimedOut 120000) /\
  clock (snd (waitForJob stalled 100 j1 None w0)) - clock w0 = 120360 /\
  length (wire (snd (waitForJob stalled 100 j1 None w0))) = 59%nat.
Proof. vm_compute. auto. Qed.

Lemma scenarioRequest_one_attempt_witness :
  outcome (served missing w0 0) =
    Responded {| status := 404; text := "not found"; json := None |} /\
  scenarioRequest missing GET (Assets a1) null w0 =
    (Throw (ScenarioApiError 404 "not found"),
     after_request missing w0 (options missing GET (Assets a1) null)) /\
  sent w0 (scenarioRequest missing GET (Assets a1) null) =
    [options missing GET (Assets a1) null].
Proof.
  pose proof (scenarioRequest_one_attempt missing GET (Assets a1) null w0 _ eq_refl)
    as (_ & Hko & Hsent).
  split; [reflexivity|]. split; [|exact Hsent].
  apply Hko. cbn. lia.
Defined.

Lemma waitForJob_returns_success_witness :
  (forall i, (i < 2)%nat -> observe (served scenario w1 i) = Running) /\
  observe (served scenario w1 2) = Succeeded (job_done [a1]) /\
  (forall i, (i <= 2)%nat -> poll_clock scenario w1 i - clock w1 < 120000) /\
  waitForJob scenario 10 j1 (Some 120000) w1 =
    (Return (job_done [a1]),
     {| clock := poll_clock scenario w1 2 + took (served scenario w1 2);
        wire := wire w1 ++ replicate 3 (options scenario GET (Jobs j1) null) |}).
Proof.
  assert (H1 : forall i, (i < 2)%nat -> observe (served scenario w1 i) = Running)
    by (intros [|[|i]] Hi; [reflexivity|reflexivity|lia]).
  assert (H2 : observe (served scenario w1 2) = Succeeded (job_done [a1]))
    by reflexivity.
  assert (H3 : forall i, (i <= 2)%nat -> poll_clock scenario w1 i - clock w1 < 120000)
    by (intros [|[|[|i]]] Hi; [reflexivity|reflexivity|reflexivity|lia]).
  split; [exact H1|]. split; [exact H2|]. split; [exact H3|].
  apply (waitForJob_returns_success scenario w1 j1 120000 2 (job_done [a1]) 10 H1 H2 H3).
  lia.
Defined.

Lemma waitForJob_throws_failed_witness :
  (forall i, (i < 1)%nat -> observe (served failing w1 i) = Running) /\
  observe (served failing w1 1) = Failed job_broken /\
  (forall i, (i <= 1)%nat -> poll_clock failing w1 i - clock w1 < 120000) /\
  waitForJob failing 10 j1 (Some 120000) w1 =
    (Throw (JobFailed job_broken),
     {| clock := poll_clock failing w1 1 + took (served failing w1 1);
        wire := wire w1 ++ replicate 2 (options failing GET (Jobs j1) null) |}).
Proof.
  assert (H1 : forall i, (i < 1)%nat -> observe (served failing w1 i) = Running)
    by (intros [|i] Hi; [reflexivity|lia]).
  assert (H2 : observe (served failing w1 1) = Failed job_broken)
    by reflexivity.
  assert (H3 : forall i, (i <= 1)%nat -> poll_clock failing w1 i - clock w1 < 120000)
    by (intros [|[|i]] Hi; [reflexivity|reflexivity|lia]).
  split; [exact H1|]. split; [exact H2|]. split; [exact H3|].
  apply (waitForJob_throws_failed failing w1 j1 120000 1 job_broken 10 H1 H2 H3).
  lia.
Defined.

Lemma stalled_sane i :
  0 <= took (served stalled w0 i) /\ 0 <= overshoot stalled (length (wire w0) + S i).
Proof. unfold served. cbn. destruct i; cbn; lia. Qed.

Lemma stalled_running i : observe (served stalled w0 i) = Running.
Proof. unfold served. cbn. destruct i; reflexivity. Qed.

Lemma waitForJob_times_out_witness :
  (forall i, 0 <= took (served stalled w0 i) /\
             0 <= overshoot stalled (length (wire w0) + S i)) /\
  (forall i, poll_clock stalled w0 i - clock w0 < 1000 ->
             observe (served stalled w0 i) = Running) /\
  exists w',
    waitForJob stalled 5 j1 (Some 1000) w0 = (Throw (JobTimedOut 1000), w') /\
    1000 <= clock w' - clock w0.
Proof.
  split; [exact stalled_sane|]. split; [intros i _; apply stalled_running|].
  apply (waitForJob_times_out stalled w0 j1 1000 5 stalled_sane).
  - intros i _. apply stalled_running.
  - vm_compute. lia.
Defined.

(** C2 as stated fails: with a deadline of 1000 ms and a job that stays
    pending, the loop polls once, sleeps 2000 ms and throws when 2040 ms
    have elapsed, and the error it throws carries 1000, not 2040. *)
Lemma waitForJob_timeout_carries_deadline :
  ~ (forall env w jobId d fuel,
       0 < d ->
       (forall i, 0 <= took (served env w i) /\
                  0 <= overshoot env (length (wire w) + S i)) ->
       (forall i, poll_clock env w i - clock w < d ->
                  observe (served env w i) = Running) ->
       (Z.to_nat (d / 2000) + 2 <= fuel)%nat ->
       exists w',
         waitForJob env fuel jobId (Some d) w =
           (Throw (JobTimedOut (clock w' - clock w)), w') /\
         d <= clock w' - clock w).
Proof.
  intros H.
  destruct (H stalled w0 j1 1000 5%nat) as (w' & Hrun & _).
  - lia.
  - exact stalled_sane.
  - intros i _. apply stalled_running.
  - vm_compute. lia.
  - assert (E : waitForJob stalled 5 j1 (Some 1000) w0 =
                (Throw (JobTimedOut 1000),
                 {| clock := 1700000002040;
                    wire := [options stalled GET (Jobs j1) null] |}))
      by (vm_compute; reflexivity).
    rewrite E in Hrun. injection Hrun as Hd Hw.
    rewrite <- Hw in Hd. cbn in Hd. discriminate.
Qed.

Lemma library_fetched i assetId :
  [a1; a2] !! i = Some assetId -> is_Some (fetched_asset library w0 i).
Proof.
  destruct i as [|[|i]]; cbn; intros H; try discriminate;
    eexists; vm_compute; reflexivity.
Qed.

Lemma resolve_preserves_order_witness :
  (forall i assetId, [a1; a2] !! i = Some assetId ->
     is_Some (fetched_asset library w0 i)) /\
  exists assets w' assets2 w2',
    for_of [a1; a2] (push_asset library txt2img_descriptor) [] w0 = (Return assets, w') /\
    for_of [a1; a2] (push_asset library img2img_descriptor) [] w0 = (Return assets2, w2') /\
    sent w0 (for_of [a1; a2] (push_asset library txt2img_descriptor) []) =
      [options library GET (Assets a1) null; options library GET (Assets a2) null] /\
    sent w0 (for_of [a1; a2] (push_asset library img2img_descriptor) []) =
      [options library GET (Assets a1) null; options library GET (Assets a2) null] /\
    length assets = 2%nat /\
    length assets2 = 2%nat /\
    forall i assetId asset,
      [a1; a2] !! i = Some assetId ->
      fetched_asset library w0 i = Some asset ->
      assets !! i =
        Some (VObj [("id", assetId);
                    ("url", opt_member asset "url");
                    ("width", opt_member (opt_member asset "properties") "width");
                    ("height", opt_member (opt_member asset "properties") "height")]) /\
      assets2 !! i =
        Some (VObj [("id", assetId); ("url", opt_member asset "url")]).
Proof.
  split; [exact library_fetched|].
  exact (resolve_preserves_order library [a1; a2] w0 library_fetched).
Defined.

(** The two descriptors of that run, in the order of the ids. *)
Example resolve_two_assets :
  fst (for_of [a1; a2] (push_asset library txt2img_descriptor) [] w0) =
    Return [VObj [("id", a1); ("url", VStr "https://x/a1.png");
                  ("width", VNum (of_Z 1024)); ("height", VNum (of_Z 1024))];
            VObj [("id", a2); ("url", VStr "https://x/a2.png");
                  ("width", VNum (of_Z 1024)); ("height", VNum (of_Z 1024))]].
Proof. vm_compute. reflexivity. Qed.


Lemma twins_txt2img_succeeds :
  job_succeeds twins w0 (CallTxt2img a_prompt) 10 0 j1 (job_done [a1; a2]).
Proof.
  split; [|split; [|split; [|split]]].
  - eexists _, _. split; [reflexivity|]. split; reflexivity.
  - intros i Hi. lia.
  - reflexivity.
  - intros [|i] Hi; [reflexivity|lia].
  - lia.
Qed.

Lemma twins_fetched i assetId :
  resolved (CallTxt2img a_prompt) [a1; a2] !! i = Some assetId ->
  is_Some (fetched_asset twins (at_resolution twins w0 (CallTxt2img a_prompt) j1 0) i).
Proof.
  destruct i as [|[|i]]; cbn; intros H; try discriminate;
    eexists; vm_compute; reflexivity.
Qed.

Lemma call_tool_resolves_witness :
  job_succeeds twins w0 (CallTxt2img a_prompt) 10 0 j1 (job_done [a1; a2]) /\
  member (job_done [a1; a2]) "metadata" = Some (VObj [("assetIds", VArr [a1; a2])]) /\
  member (VObj [("assetIds", VArr [a1; a2])]) "assetIds" = Some (VArr [a1; a2]) /\
  (forall i assetId,
     resolved (CallTxt2img a_prompt) [a1; a2] !! i = Some assetId ->
     is_Some (fetched_asset twins (at_resolution twins w0 (CallTxt2img a_prompt) j1 0) i)) /\
  exists r w',
    call_tool twins 10 (CallTxt2img a_prompt) w0 = (Return r, w') /\
    descriptor_ids r = [a1; a2] /\
    asset_fetches (sent w0 (call_tool twins 10 (CallTxt2img a_prompt))) = [a1; a2] /\
    exists assets,
      r = TextContent (VObj [("success", VBool true); ("assets", VArr assets)]) /\
      length assets = 2%nat /\
      forall i assetId asset,
        [a1; a2] !! i = Some assetId ->
        fetched_asset twins (at_resolution twins w0 (CallTxt2img a_prompt) j1 0) i
          = Some asset ->
        assets !! i =
          Some (VObj [("id", assetId);
                      ("url", opt_member asset "url");
                      ("width", opt_member (opt_member asset "properties") "width");
                      ("height", opt_member (opt_member asset "properties") "height")]).
Proof.
  split; [exact twins_txt2img_succeeds|]. split; [reflexivity|]. split; [reflexivity|].
  split; [exact twins_fetched|].
  exact (call_tool_resolves twins (CallTxt2img a_prompt) w0 10 0 j1 (job_done [a1; a2])
           (VObj [("assetIds", VArr [a1; a2])]) [a1; a2]
           twins_txt2img_succeeds eq_refl eq_refl twins_fetched).
Defined.

(** That run: [txt2img] returns the descriptors of [a1] and [a2], in this
    order, each with the url of its own asset. *)
Example txt2img_two_outputs :
  fst (call_tool twins 10 (CallTxt2img a_prompt) w0) =
    Return
      (TextContent
         (VObj [("success", VBool true);
                ("assets",
                 VArr [VObj [("id", a1); ("url", VStr "https://x/a1.png");
                             ("width", VNum (of_Z 1024)); ("height", VNum (of_Z 1024))];
                       VObj [("id", a2); ("url", VStr "https://x/a2.png");
                             ("width", VNum (of_Z 1024)); ("height", VNum (of_Z 1024))]])])).
Proof. vm_compute. reflexivity. Qed.

Lemma twins_job_succeeds :
  job_succeeds twins w0 (CallUpscale an_upscale) 10 0 j1 (job_done [a1; a2]).
Proof.
  split; [|split; [|split; [|split]]].
  - eexists _, _. split; [reflexivity|]. split; reflexivity.
  - intros i Hi. lia.
  - reflexivity.
  - intros [|i] Hi; [reflexivity|lia].
  - lia.
Qed.

(** C1 as stated fails for the editors: a job of [upscale] that succeeds
    with the two outputs [a1] and [a2], both of which can be fetched, ends
    with the one descriptor of [a1]; [a2] is never fetched. *)
Lemma upscale_resolves_first_output_only :
  ~ (forall env c w fuel p jobId job ids,
       job_succeeds env w c fuel p jobId job ->
       output_ids job = Some ids ->
       (forall i assetId, ids !! i = Some assetId ->
          is_Some (described env
                     (after_poll env (after_request env w (submit_request env c)) jobId p)
                     (descriptor_of c) i assetId)) ->
       exists r w',
         call_tool env fuel c w = (Return r, w') /\
         descriptor_ids r = ids /\
         asset_fetches (sent w (call_tool env fuel c)) = ids).
Proof.
  intros H.
  destruct (H twins (CallUpscale an_upscale) w0 10%nat 0%nat j1 (job_done [a1; a2]) [a1; a2]
              twins_job_succeeds eq_refl)
    as (r & w' & Hrun & Hdesc & _).
  - intros [|[|i]] assetId Hi; cbn in Hi; try discriminate;
      injection Hi as <-; eexists; vm_compute; reflexivity.
  - assert (E : descriptor_ids
                  match fst (call_tool twins 10 (CallUpscale an_upscale) w0) with
                  | Return r0 => r0
                  | _ => TextContent undefined
                  end = [a1])
      by (vm_compute; reflexivity).
    rewrite Hrun in E. cbn [fst] in E. rewrite Hdesc in E. discriminate.
Qed.


(** * Further properties *)

(** ** Every run of the polling loop *)

Section Loop.

Variable env : Env.
Variable w : World.
Variable jobId : Value.
Variable d : Z.

(** An error of the provider client is none of the two errors of
    [waitForJob]. *)
Lemma answer_error x e :
  answer x = Throw e ->
  e = FetchFailed \/ e = SyntaxError \/ exists code raw, e = ScenarioApiError code raw.
Proof.
  unfold answer. destruct (outcome x) as [|r]; [intros [= <-]; auto|].
  destruct (ok r); [|intros [= <-]; eauto].
  destruct (json r); [discriminate|intros [= <-]; auto].
Qed.

Lemma observe_Succeeded x job :
  observe x = Succeeded job ->
  exists result,
    answer x = Return result /\
    member result "job" = Some job /\
    member job "status" = Some (VStr "success").
Proof.
  unfold observe. destruct (answer x) as [result|e|]; try discriminate.
  destruct (member result "job") as [job'|] eqn:Hj; [|discriminate].
  destruct (member job' "status") as [s|] eqn:Hs; [|discriminate].
  destruct (is_string s "success") eqn:Hok.
  - intros [= <-]. exists result. split; [reflexivity|]. split; [exact Hj|].
    rewrite Hs. f_equal. destruct s; try discriminate.
    cbn in Hok. apply String.eqb_eq in Hok. congruence.
  - destruct (is_string s "failed"); discriminate.
Qed.

Lemma observe_Failed x job :
  observe x = Failed job ->
  exists result,
    answer x = Return result /\
    member result "job" = Some job /\
    member job "status" = Some (VStr "failed").
Proof.
  unfold observe. destruct (answer x) as [result|e|]; try discriminate.
  destruct (member result "job") as [job'|] eqn:Hj; [|discriminate].
  destruct (member job' "status") as [s|] eqn:Hs; [|discriminate].
  destruct (is_string s "success"); [discriminate|].
  destruct (is_string s "failed") eqn:Hko; [|discriminate].
  intros [= <-]. exists result. split; [reflexivity|]. split; [exact Hj|].
  rewrite Hs. f_equal. destruct s; try discriminate.
  cbn in Hko. apply String.eqb_eq in Hko. congruence.
Qed.

Lemma observe_Broken x e :
  observe x = Broken e ->
  e = FetchFailed \/ e = SyntaxError \/ e = TypeError \/
  exists code raw, e = ScenarioApiError code raw.
Proof.
  unfold observe. destruct (answer x) as [result|e'|] eqn:Ha.
  - destruct (member result "job") as [job'|]; [|intros [= <-]; auto].
    destruct (member job' "status") as [s|]; [|intros [= <-]; auto].
    destruct (is_string s "success"); [discriminate|].
    destruct (is_string s "failed"); discriminate.
  - intros [= <-]. destruct (answer_error _ _ Ha) as [->|[->|H]]; auto.
  - intros [= <-]. auto.
Qed.

(** How a run of the loop ends.  From its [i]-th test of the clock the
    loop makes passes that all observe a non-terminal status, up to a test
    [k] at which it runs out of fuel, finds the deadline reached, or sends
    a last query and acts on a terminal status or an error. *)
Lemma loop_ends fuel :
  forall i,
  exists k,
    (i <= k <= i + fuel)%nat /\
    (forall j, (i <= j < k)%nat ->
       observe (served env w j) = Running /\ poll_clock env w j - clock w < d) /\
    let run := waitForJob_loop env fuel jobId d (clock w) (at_poll env w jobId i) in
    (k = (i + fuel)%nat /\ run = (Unfinished, at_poll env w jobId k)) \/
    (d <= poll_clock env w k - clock w /\
     run = (Throw (JobTimedOut d), at_poll env w jobId k)) \/
    ((k < i + fuel)%nat /\ poll_clock env w k - clock w < d /\
     ((exists job, observe (served env w k) = Succeeded job /\
                   run = (Return job, after_poll env w jobId k)) \/
      (exists job, observe (served env w k) = Failed job /\
                   run = (Throw (JobFailed job), after_poll env w jobId k)) \/
      (exists e, observe (served env w k) = Broken e /\
                 run = (Throw e, after_poll env w jobId k)))).
Proof.
  induction fuel as [|fuel IH]; intros i.
  - exists i. split; [lia|]. split; [intros j Hj; lia|].
    left. split; [lia|reflexivity].
  - destruct (Z.lt_ge_cases (poll_clock env w i - clock w) d) as [Hlt|Hge].
    + destruct (observe (served env w i)) as [|job|job|e] eqn:Hobs.
      * destruct (IH (S i)) as (k & Hk & Hbefore & Hend).
        exists k. split; [lia|]. split.
        { intros j Hj. destruct (decide (j = i)) as [->|Hne]; [auto|].
          apply Hbefore. lia. }
        cbv zeta in *. rewrite loop_pass by assumption. rewrite Hobs.
        destruct Hend as [[Hf Hr]|[Hr|(Hb & Hr)]];
          [left; split; [lia|exact Hr]|auto|].
        right. right. split; [lia|exact Hr].
      * exists i. split; [lia|]. split; [intros j Hj; lia|].
        cbv zeta. rewrite loop_pass by assumption. rewrite Hobs.
        right. right. split; [lia|]. split; [exact Hlt|]. left. eauto.
      * exists i. split; [lia|]. split; [intros j Hj; lia|].
        cbv zeta. rewrite loop_pass by assumption. rewrite Hobs.
        right. right. split; [lia|]. split; [exact Hlt|]. right. left. eauto.
      * exists i. split; [lia|]. split; [intros j Hj; lia|].
        cbv zeta. rewrite loop_pass by assumption. rewrite Hobs.
        right. right. split; [lia|]. split; [exact Hlt|]. right. right. eauto.
    + exists i. split; [lia|]. split; [intros j Hj; lia|].
      cbv zeta. rewrite loop_deadline by lia. right. left. split; [lia|reflexivity].
Qed.

(** The same for [waitForJob] itself, which starts the loop in [w]. *)
Lemma waitForJob_ends fuel :
  exists k,
    (k <= fuel)%nat /\
    (forall j, (j < k)%nat ->
       observe (served env w j) = Running /\ poll_clock env w j - clock w < d) /\
    let run := waitForJob env fuel jobId (Some d) w in
    (k = fuel /\ run = (Unfinished, at_poll env w jobId k)) \/
    (d <= poll_clock env w k - clock w /\
     run = (Throw (JobTimedOut d), at_poll env w jobId k)) \/
    ((k < fuel)%nat /\ poll_clock env w k - clock w < d /\
     ((exists job, observe (served env w k) = Succeeded job /\
                   run = (Return job, after_poll env w jobId k)) \/
      (exists job, observe (served env w k) = Failed job /\
                   run = (Throw (JobFailed job), after_poll env w jobId k)) \/
      (exists e, observe (served env w k) = Broken e /\
                 run = (Throw e, after_poll env w jobId k)))).
Proof.
  destruct (loop_ends fuel 0) as (k & Hk & Hbefore & Hend).
  exists k. split; [lia|]. split; [intros j Hj; apply Hbefore; lia|].
  cbv zeta in *. rewrite at_poll_0 in Hend.
  unfold waitForJob, bind, Date_now. cbn [default].
  destruct Hend as [[Hf Hr]|[Hr|(Hb & Hr)]];
    [left; split; [lia|exact Hr]|auto|].
  right. right. split; [lia|exact Hr].
Qed.

(** On a clock that does not run backwards, the [i]-th test comes at
    least [2000 * i] ms after the start. *)
Lemma poll_clock_lower :
  (forall i, 0 <= took (served env w i) /\ 0 <= overshoot env (length (wire w) + S i)) ->
  forall i, clock w + 2000 * Z.of_nat i <= poll_clock env w i.
Proof.
  intros Hsane. induction i as [|i IH]; [cbn; lia|].
  cbn [poll_clock]. destruct (Hsane i). lia.
Qed.

End Loop.

(** What [waitForJob] sends: status queries of its job and nothing else,
    each begun before the deadline. *)
Lemma waitForJob_sent env w jobId d fuel :
  exists n,
    wire (snd (waitForJob env fuel jobId (Some d) w)) =
      wire w ++ replicate n (options env GET (Jobs jobId) null) /\
    forall j, (j < n)%nat -> poll_clock env w j - clock w < d.
Proof.
  destruct (waitForJob_ends env w jobId d fuel) as (k & Hk & Hbefore & Hend).
  cbv zeta in Hend.
  destruct Hend as [[_ Hr]|[[_ Hr]|(_ & Hlt & Hr)]].
  - exists k. rewrite Hr. split; [reflexivity|]. intros j Hj. apply Hbefore, Hj.
  - exists k. rewrite Hr. split; [reflexivity|]. intros j Hj. apply Hbefore, Hj.
  - exists (S k).
    assert (Hw : wire (snd (waitForJob env fuel jobId (Some d) w)) =
                 wire (after_poll env w jobId k)).
    { destruct Hr as [(job & _ & ->)|[(job & _ & ->)|(e & _ & ->)]]; reflexivity. }
    rewrite Hw. split; [reflexivity|].
    intros j Hj. destruct (decide (j = k)) as [->|Hne]; [exact Hlt|].
    apply Hbefore. lia.
Qed.

(** X1. Whatever [waitForJob] returns is the [job] object of the answer to
    the last status query it sent, and the [status] of that object is the
    string [success]: no other path out of the loop returns a value. *)
Theorem waitForJob_returns_only_success env w jobId maxWaitMs fuel job w' :
  waitForJob env fuel jobId maxWaitMs w = (Return job, w') ->
  member job "status" = Some (VStr "success") /\
  exists n result,
    w' = after_poll env w jobId n /\
    answer (served env w n) = Return result /\
    member result "job" = Some job.
Proof.
  change (waitForJob env fuel jobId maxWaitMs)
    with (waitForJob env fuel jobId (Some (default 120000 maxWaitMs))).
  intros Hrun.
  destruct (waitForJob_ends env w jobId (default 120000 maxWaitMs) fuel)
    as (k & _ & _ & Hend).
  cbv zeta in Hend. rewrite Hrun in Hend.
  destruct Hend as [[_ Hr]|[[_ Hr]|(_ & _ & [(j & Ho & Hr)|[(j & _ & Hr)|(e & _ & Hr)]])]];
    try discriminate.
  injection Hr as -> ->.
  destruct (observe_Succeeded _ _ Ho) as (result & Ha & Hj & Hs).
  split; [exact Hs|]. exists k, result. auto.
Qed.

(** X2. [waitForJob] throws the job-failed error only for a job object
    that the last status query returned with the [status] string
    [failed]. *)
Theorem waitForJob_failed_only_on_failed env w jobId maxWaitMs fuel job w' :
  waitForJob env fuel jobId maxWaitMs w = (Throw (JobFailed job), w') ->
  member job "status" = Some (VStr "failed") /\
  exists n result,
    w' = after_poll env w jobId n /\
    answer (served env w n) = Return result /\
    member result "job" = Some job.
Proof.
  change (waitForJob env fuel jobId maxWaitMs)
    with (waitForJob env fuel jobId (Some (default 120000 maxWaitMs))).
  intros Hrun.
  destruct (waitForJob_ends env w jobId (default 120000 maxWaitMs) fuel)
    as (k & _ & _ & Hend).
  cbv zeta in Hend. rewrite Hrun in Hend.
  destruct Hend as [[_ Hr]|[[_ Hr]|(_ & _ & [(j & _ & Hr)|[(j & Ho & Hr)|(e & Ho & Hr)]])]];
    try discriminate.
  - injection Hr as -> ->.
    destruct (observe_Failed _ _ Ho) as (result & Ha & Hj & Hs).
    split; [exact Hs|]. exists k, result. auto.
  - injection Hr as <- _.
    destruct (observe_Broken _ _ Ho) as [H|[H|[H|(c & r & H)]]]; discriminate.
Qed.

(** X3. A timeout is never reported early: when [waitForJob] throws the
    timeout error, the error carries the deadline it was called with (120000
    when none was given) and at least that many milliseconds have passed on
    the clock since the call. *)
Theorem waitForJob_timeout_not_early env w jobId maxWaitMs fuel m w' :
  waitForJob env fuel jobId maxWaitMs w = (Throw (JobTimedOut m), w') ->
  m = default 120000 maxWaitMs /\ m <= clock w' - clock w.
Proof.
  change (waitForJob env fuel jobId maxWaitMs)
    with (waitForJob env fuel jobId (Some (default 120000 maxWaitMs))).
  intros Hrun.
  destruct (waitForJob_ends env w jobId (default 120000 maxWaitMs) fuel)
    as (k & _ & _ & Hend).
  cbv zeta in Hend. rewrite Hrun in Hend.
  destruct Hend as [[_ Hr]|[[Hd Hr]|(_ & _ & [(j & _ & Hr)|[(j & Ho & Hr)|(e & Ho & Hr)]])]];
    try discriminate.
  - injection Hr as -> ->. split; [reflexivity|exact Hd].
  - injection Hr as <- _.
    destruct (observe_Broken _ _ Ho) as [H|[H|[H|(c & r & H)]]]; discriminate.
Qed.

(** X4. [waitForJob] only reads: every request it sends is the status
    query [GET /jobs/jobId] without a body, and each one is sent while less
    than the deadline has elapsed since the call. *)
Theorem waitForJob_sends_status_queries_only env w jobId maxWaitMs fuel :
  exists n,
    sent w (waitForJob env fuel jobId maxWaitMs) =
      replicate n (options env GET (Jobs jobId) null) /\
    forall j, (j < n)%nat ->
      poll_clock env w j - clock w < default 120000 maxWaitMs.
Proof.
  change (waitForJob env fuel jobId maxWaitMs)
    with (waitForJob env fuel jobId (Some (default 120000 maxWaitMs))).
  destruct (waitForJob_sent env w jobId (default 120000 maxWaitMs) fuel)
    as (n & Hw & Hclk).
  exists n. split; [|exact Hclk].
  unfold sent. rewrite Hw. apply drop_app_length.
Qed.

(** X5. On a clock that does not run backwards [waitForJob] sends fewer
    than [d / 2000 + 1] status queries under a deadline of [d] ms: at most
    60 under the default deadline, none when [d] is not positive. *)
Theorem waitForJob_query_bound env w jobId d fuel :
  (forall i, 0 <= took (served env w i) /\ 0 <= overshoot env (length (wire w) + S i)) ->
  2000 * Z.of_nat (length (sent w (waitForJob env fuel jobId (Some d)))) <
    Z.max 0 d + 2000.
Proof.
  intros Hsane.
  destruct (waitForJob_sent env w jobId d fuel) as (n & Hw & Hclk).
  unfold sent. rewrite Hw, drop_app_length, length_replicate.
  destruct n as [|n]; [lia|].
  pose proof (Hclk n ltac:(lia)) as Hlast.
  pose proof (poll_clock_lower env w Hsane n). lia.
Qed.

(** X6. On a clock that does not run backwards [waitForJob] terminates:
    with fuel for [d / 2000 + 2] tests of the clock it ends with a value or
    an error, whatever the provider answers. *)
Theorem waitForJob_terminates env w jobId d fuel :
  (forall i, 0 <= took (served env w i) /\ 0 <= overshoot env (length (wire w) + S i)) ->
  (Z.to_nat (d / 2000) + 2 <= fuel)%nat ->
  fst (waitForJob env fuel jobId (Some d) w) <> Unfinished.
Proof.
  intros Hsane Hfuel.
  destruct (waitForJob_ends env w jobId d fuel) as (k & _ & Hbefore & Hend).
  cbv zeta in Hend.
  destruct Hend as [[Hk Hr]|[[_ Hr]|(_ & _ & [(j & _ & Hr)|[(j & _ & Hr)|(e & _ & Hr)]])]];
    try (rewrite Hr; discriminate).
  exfalso. subst k.
  destruct fuel as [|fuel]; [lia|].
  destruct (Hbefore fuel ltac:(lia)) as [_ Hlt].
  pose proof (poll_clock_lower env w Hsane fuel).
  pose proof (Z.mul_succ_div_gt d 2000 ltac:(lia)).
  destruct (Z.le_gt_cases 0 d); [|lia].
  assert (0 <= d / 2000) by (apply Z.div_pos; lia).
  lia.
Qed.

(** X7. A longer deadline changes nothing for a job that settles in time:
    when [waitForJob] under a deadline [d] ends with a result or with an
    error other than its timeout, it ends in the same way, in the same
    world, under every deadline [d' >= d]. *)
Theorem waitForJob_longer_deadline env w jobId d d' fuel o w' :
  waitForJob env fuel jobId (Some d) w = (o, w') ->
  o <> Unfinished ->
  o <> Throw (JobTimedOut d) ->
  d <= d' ->
  waitForJob env fuel jobId (Some d') w = (o, w').
Proof.
  intros Hrun Hfin Hto Hle.
  destruct (waitForJob_ends env w jobId d fuel) as (k & _ & Hbefore & Hend).
  cbv zeta in Hend. rewrite Hrun in Hend.
  destruct Hend as [[_ Hr]|[[_ Hr]|(Hk & Hlt & Hr)]].
  - injection Hr as -> _. destruct Hfin. reflexivity.
  - injection Hr as -> _. destruct Hto. reflexivity.
  - rewrite (loop_settles env w jobId d' k fuel Hk).
    + destruct Hr as [(j & -> & Hr)|[(j & -> & Hr)|(e & -> & Hr)]]; symmetry; exact Hr.
    + intros i Hi. apply Hbefore, Hi.
    + intros i Hi. destruct (decide (i = k)) as [->|Hne]; [lia|].
      destruct (Hbefore i ltac:(lia)). lia.
Qed.

(** X8. A status query that fails is not retried: after [p] non-terminal
    observations, when the next query (sent before the deadline) is
    answered with an error - the request rejected, a non-2xx status, a body
    that is not JSON or that has no [job] - [waitForJob] throws that error
    at once, [p + 1] queries having been sent. *)
Theorem waitForJob_poll_error env w jobId d p e fuel :
  (forall i, (i < p)%nat -> observe (served env w i) = Running) ->
  observe (served env w p) = Broken e ->
  (forall i, (i <= p)%nat -> poll_clock env w i - clock w < d) ->
  (p < fuel)%nat ->
  waitForJob env fuel jobId (Some d) w = (Throw e, after_poll env w jobId p).
Proof.
  intros Hrun Herr Hclk Hfuel.
  rewrite (loop_settles env w jobId d p fuel) by assumption.
  rewrite Herr. reflexivity.
Qed.

(** X9. With a deadline that is not positive [waitForJob] sends nothing:
    it throws its timeout error at once, in the world it was called in. *)
Theorem waitForJob_no_budget env w jobId d fuel :
  d <= 0 ->
  (0 < fuel)%nat ->
  waitForJob env fuel jobId (Some d) w = (Throw (JobTimedOut d), w).
Proof.
  intros Hd Hfuel. destruct fuel as [|fuel]; [lia|].
  pose proof (loop_deadline env w jobId d 0 fuel) as H.
  rewrite at_poll_0 in H.
  unfold waitForJob, bind, Date_now. cbn [default].
  apply H. cbn [poll_clock]. lia.
Qed.

(** ** What the handlers send *)

Section Sending.

Variable env : Env.
Variable P : Request -> Prop.

(** Every read-only request has the property. *)
Hypothesis P_query : forall endpoint, P (options env GET endpoint null).

Lemma sends_pure {A} (o : Outcome A) : sends P (fun w => (o, w)).
Proof. intros w. exists []. cbn. rewrite app_nil_r. auto. Qed.

Lemma sends_ret {A} (a : A) : sends P (ret a).
Proof. exact (sends_pure (Return a)). Qed.

Lemma sends_throw {A} e : sends P (@throw A e).
Proof. exact (sends_pure (Throw e)). Qed.

Lemma sends_unfinished {A} : sends P (@unfinished A).
Proof. exact (sends_pure Unfinished). Qed.

Lemma sends_Date_now : sends P Date_now.
Proof. intros w. exists []. cbn. rewrite app_nil_r. auto. Qed.

Lemma sends_checked {A} (o : option A) : sends P (checked o).
Proof. destruct o; [apply sends_ret|apply sends_throw]. Qed.

Lemma sends_setTimeout ms : sends P (setTimeout env ms).
Proof. intros w. exists []. cbn. rewrite app_nil_r. auto. Qed.

Lemma sends_bind {A B} (m : M A) (k : A -> M B) :
  sends P m -> (forall a, sends P (k a)) -> sends P (bind m k).
Proof.
  intros Hm Hk w. unfold bind.
  destruct (Hm w) as (l & Hl & HP).
  destruct (m w) as [[a|e|] w1]; cbn [snd] in *; [|eauto..].
  destruct (Hk a w1) as (l' & Hl' & HP').
  exists (l ++ l'). rewrite Hl', Hl, app_assoc. split; [reflexivity|].
  apply Forall_app. auto.
Qed.

Lemma sends_query endpoint : sends P (scenarioRequest env GET endpoint null).
Proof.
  intros w. rewrite scenarioRequest_answer. eexists. split; [reflexivity|].
  constructor; [apply P_query|constructor].
Qed.

Ltac send :=
  repeat first
    [ apply sends_ret | apply sends_throw | apply sends_unfinished
    | apply sends_Date_now | apply sends_checked | apply sends_setTimeout
    | apply sends_query | assumption
    | apply sends_bind; [|intro]
    | match goal with |- sends _ (if ?b then _ else _) => destruct b end ].

Lemma sends_waitForJob_loop fuel jobId maxWaitMs startTime :
  sends P (waitForJob_loop env fuel jobId maxWaitMs startTime).
Proof.
  induction fuel as [|fuel IH]; cbn [waitForJob_loop]; send.
Qed.

Lemma sends_for_of descriptor ids :
  forall assets, sends P (for_of ids (push_asset env descriptor) assets).
Proof.
  induction ids as [|assetId ids IH]; intros assets; cbn [for_of]; [send|].
  apply sends_bind; [unfold push_asset; send|]. intros assets'. apply IH.
Qed.

(** The requests of a handler that opens with a request of its own and
    goes on with read-only ones. *)
Lemma sends_after_request {B} w method endpoint body (k : Value -> M B) :
  (forall v, sends P (k v)) ->
  exists l,
    sent w (bind (scenarioRequest env method endpoint body) k) =
      options env method endpoint body :: l /\
    Forall P l.
Proof.
  intros Hk. unfold sent, bind. rewrite scenarioRequest_answer.
  destruct (answer (served env w 0)) as [v|e|]; cbn [snd].
  - destruct (Hk v (after_request env w (options env method endpoint body)))
      as (l & Hl & HP).
    exists l. rewrite Hl. unfold after_request. cbn [wire].
    rewrite <- app_assoc, drop_app_length. auto.
  - exists []. unfold after_request. cbn [wire]. rewrite drop_app_length. auto.
  - exists []. unfold after_request. cbn [wire]. rewrite drop_app_length. auto.
Qed.

Lemma call_tool_sends fuel c w :
  exists l,
    sent w (call_tool env fuel c) = submit_request env c :: l /\ Forall P l.
Proof.
  destruct c as [a|a|a|a]; cbn [call_tool submit_request];
    [unfold txt2img|unfold img2img|unfold remove_background|unfold upscale];
    apply sends_after_request; intros v; send;
    first [apply sends_waitForJob_loop | apply sends_for_of].
Qed.

End Sending.

(** X10. Every call of an operation submits exactly one job: the first
    request it sends is its submission, and every request after that - the
    status queries and the asset fetches - is a [GET] without a body. *)
Theorem call_tool_submits_once env fuel c w :
  exists l,
    sent w (call_tool env fuel c) = submit_request env c :: l /\
    method (submit_request env c) = POST /\
    Forall (fun r => is_query r = true) l.
Proof.
  destruct (call_tool_sends env (fun r => is_query r = true)
              ltac:(intros; reflexivity) fuel c w) as (l & Hl & HP).
  exists l. split; [exact Hl|]. split; [destruct c; reflexivity|exact HP].
Qed.

(** X11. Every request an operation sends, whatever happens to the job,
    carries the credential header of the process. *)
Theorem call_tool_authorized env fuel c w :
  Forall (authorized env) (sent w (call_tool env fuel c)).
Proof.
  destruct (call_tool_sends env (authorized env)
              ltac:(intros; left; reflexivity) fuel c w) as (l & -> & HP).
  constructor; [|exact HP]. destruct c; left; reflexivity.
Qed.

(** ** When a stage of the pipeline fails *)

(** X12. When the submission fails - the request rejected, a non-2xx
    status, a body that is not JSON - the operation throws that very error
    and its one request is all it has sent: nothing is polled or fetched. *)
Theorem call_tool_submission_failure env fuel c w e :
  answer (served env w 0) = Throw e ->
  call_tool env fuel c w = (Throw e, after_request env w (submit_request env c)).
Proof.
  intros Ha.
  destruct c as [a|a|a|a]; cbn [call_tool submit_request];
    [unfold txt2img|unfold img2img|unfold remove_background|unfold upscale];
    cbv zeta; unfold bind at 1; rewrite scenarioRequest_answer, Ha; reflexivity.
Qed.

(** Once its submission is answered with a job id, an operation is its
    wait for that job, under its own deadline, followed by the rest. *)
Lemma call_tool_after_submit env fuel c w result submitted jobId :
  answer (served env w 0) = Return result ->
  member result "job" = Some submitted ->
  member submitted "jobId" = Some jobId ->
  exists k,
    call_tool env fuel c w =
      bind (waitForJob env fuel jobId (Some (deadline_of c))) k
        (after_request env w (submit_request env c)).
Proof.
  intros Ha Hj Hid.
  destruct c as [a|a|a|a]; cbn [call_tool submit_request deadline_of];
    [unfold txt2img|unfold img2img|unfold remove_background|unfold upscale];
    cbv zeta; unfold bind at 1; rewrite scenarioRequest_answer, Ha;
    unfold bind at 1; rewrite Hj; cbn [checked ret];
    unfold bind at 1; rewrite Hid; cbn [checked ret];
    eexists; reflexivity.
Qed.

(** X13. When the wait for the job throws - the job failed, the deadline
    of the operation passed (180000 ms for [upscale], 120000 ms for the
    others), or a status query failed - the operation throws the same
    error, and no asset has been fetched. *)
Theorem call_tool_wait_failure env fuel c w result submitted jobId e w2 :
  answer (served env w 0) = Return result ->
  member result "job" = Some submitted ->
  member submitted "jobId" = Some jobId ->
  waitForJob env fuel jobId (Some (deadline_of c))
    (after_request env w (submit_request env c)) = (Throw e, w2) ->
  call_tool env fuel c w = (Throw e, w2) /\
  asset_fetches (sent w (call_tool env fuel c)) = [].
Proof.
  intros Ha Hj Hid Hwait.
  destruct (call_tool_after_submit env fuel c w result submitted jobId Ha Hj Hid)
    as (k & Hrun).
  assert (Hcall : call_tool env fuel c w = (Throw e, w2)).
  { rewrite Hrun. unfold bind. rewrite Hwait. reflexivity. }
  split; [exact Hcall|].
  unfold sent. rewrite Hcall. cbn [snd].
  destruct (waitForJob_sent env (after_request env w (submit_request env c))
              jobId (deadline_of c) fuel) as (n & Hw & _).
  rewrite Hwait in Hw. cbn [snd] in Hw. rewrite Hw.
  unfold after_request. cbn [wire].
  rewrite <- app_assoc, drop_app_length, asset_fetches_app.
  rewrite asset_fetches_submit, asset_fetches_polls. reflexivity.
Qed.

(** X14. Resolution stops at the first fetch that yields no descriptor:
    the loop throws the error of that fetch (or the TypeError of reading
    its answer), having requested the ids up to that one and none of the
    ids after it. *)
Theorem resolve_stops_at_first_failure env descriptor ids w k assetId :
  ids !! k = Some assetId ->
  (forall i a, (i < k)%nat -> ids !! i = Some a ->
     is_Some (described env w descriptor i a)) ->
  described env w descriptor k assetId = None ->
  fst (for_of ids (push_asset env descriptor) [] w) =
    Throw (resolution_error (served env w k)) /\
  sent w (for_of ids (push_asset env descriptor) []) =
    map (fun a => options env GET (Assets a) null) (take (S k) ids).
Proof.
  intros Hk Hbefore Hnone.
  destruct (for_of_first_failure env descriptor ids [] w k assetId Hk Hbefore Hnone)
    as (w' & Hrun & Hwire).
  unfold sent. rewrite Hrun. cbn [fst snd]. split; [reflexivity|].
  rewrite Hwire. apply drop_app_length.
Qed.

(** ** The read-only tools *)

(** X15. [get_asset] sends one request, [GET /assets/assetId], and
    succeeds on every answer that has an [asset], however bare: the fields
    it reports are read from the asset (the [id] too, not the id that was
    asked for), and [type], [width] and [height] come out [undefined] when
    the asset has no [metadata] or no [properties]. *)
Theorem get_asset_reads_asset env assetId w result asset :
  answer (served env w 0) = Return result ->
  member result "asset" = Some asset ->
  nullish asset = false ->
  get_asset env assetId w =
    (Return
       (TextContent
          (VObj [("id", opt_member asset "id");
                 ("url", opt_member asset "url");
                 ("type", opt_member (opt_member asset "metadata") "type");
                 ("description", opt_member asset "description");
                 ("width", opt_member (opt_member asset "properties") "width");
                 ("height", opt_member (opt_member asset "properties") "height");
                 ("createdAt", opt_member asset "createdAt")])),
     after_request env w (options env GET (Assets assetId) null)).
Proof.
  intros Ha Hasset Hdef.
  unfold get_asset, bind. rewrite scenarioRequest_answer, Ha.
  unfold get_asset_payload. rewrite Hasset. cbn [mbind option_bind].
  rewrite !(member_defined asset) by exact Hdef. reflexivity.
Qed.

(** X16. [get_asset] has no answer of its own for an asset that is not
    there: a 2xx answer without an [asset] (or with [asset: null]) makes it
    throw a TypeError, after its one request. *)
Theorem get_asset_without_asset env assetId w result :
  answer (served env w 0) = Return result ->
  nullish (opt_member result "asset") = true ->
  get_asset env assetId w =
    (Throw TypeError, after_request env w (options env GET (Assets assetId) null)).
Proof.
  intros Ha Hnull.
  unfold get_asset, bind. rewrite scenarioRequest_answer, Ha.
  unfold get_asset_payload.
  destruct (nullish result) eqn:Hr.
  - rewrite (member_nullish result) by exact Hr. reflexivity.
  - rewrite (member_defined result) by exact Hr. cbn [mbind option_bind].
    rewrite (member_nullish _ "id") by exact Hnull. reflexivity.
Qed.

Lemma asset_summary_defined a :
  nullish a = false ->
  asset_summary a =
    Some (VObj [("id", opt_member a "id");
                ("url", opt_member a "url");
                ("type", opt_member (opt_member a "metadata") "type");
                ("name", opt_member (opt_member a "metadata") "name");
                ("description", opt_member a "description");
                ("createdAt", opt_member a "createdAt")]).
Proof.
  intros Hdef. unfold asset_summary.
  rewrite !(member_defined a) by exact Hdef. reflexivity.
Qed.

Lemma asset_summary_nullish a : nullish a = true -> asset_summary a = None.
Proof.
  destruct a; cbn; try discriminate; reflexivity.
Qed.

(** X17. [list_assets] lists all or nothing.  For an answer whose [assets]
    is an array: if an entry is [null] the whole listing throws; otherwise
    it has one summary per asset, in the order of the answer, and an asset
    without [metadata] is summarised with [type] and [name] undefined
    rather than failing. *)
Theorem list_assets_all_or_nothing result items :
  member result "assets" = Some (VArr items) ->
  (Exists (fun a => nullish a = true) items -> list_assets_result result = None) /\
  (Forall (fun a => nullish a = false) items ->
   exists summaries,
     list_assets_result result = Some (TextContent (VArr summaries)) /\
     length summaries = length items /\
     forall i a, items !! i = Some a ->
       exists s,
         summaries !! i = Some s /\
         opt_member s "id" = opt_member a "id" /\
         opt_member s "url" = opt_member a "url" /\
         opt_member s "type" = opt_member (opt_member a "metadata") "type" /\
         opt_member s "name" = opt_member (opt_member a "metadata") "name").
Proof.
  intros Hassets. unfold list_assets_result. rewrite Hassets.
  cbn [mbind option_bind Array_map]. split.
  - intros Hex.
    assert (Hnone : mapM asset_summary items = None).
    { apply mapM_None_2. eapply Exists_impl; [exact Hex|].
      intros a Ha. apply asset_summary_nullish, Ha. }
    rewrite Hnone. reflexivity.
  - intros Hall.
    destruct (mapM asset_summary items) as [summaries|] eqn:Hmap.
    + exists summaries. split; [reflexivity|].
      pose proof (mapM_Some_1 _ _ _ Hmap) as H2.
      split; [symmetry; eapply Forall2_length, H2|].
      intros i a Hi.
      destruct (Forall2_lookup_l _ _ _ _ _ H2 Hi) as (s & Hs & Hsum).
      exists s. split; [exact Hs|].
      rewrite asset_summary_defined in Hsum
        by (eapply (proj1 (Forall_lookup _ _) Hall); exact Hi).
      injection Hsum as <-. cbn. auto.
    + apply mapM_None_1 in Hmap. exfalso.
      apply Exists_exists in Hmap as (a & Hin & Hnone).
      rewrite asset_summary_defined in Hnone; [discriminate|].
      eapply (proj1 (Forall_forall _ _) Hall). exact Hin.
Qed.

Lemma model_summary_keys m s :
  model_summary m = Some s ->
  exists id name type modelStatus,
    s = VObj [("id", id); ("name", name); ("type", type); ("status", modelStatus)] /\
    id = opt_member m "id" /\ name = opt_member m "name" /\
    type = opt_member m "type" /\ modelStatus = opt_member m "status".
Proof.
  unfold model_summary. destruct (nullish m) eqn:Hm.
  - destruct m; try discriminate Hm; discriminate.
  - rewrite !(member_defined m) by exact Hm. cbn. intros [= <-].
    eexists _, _, _, _. repeat split.
Qed.

(** X18. [list_models] passes on four properties of each model and no
    other: every entry of a listing is an object with exactly the keys
    [id], [name], [type], [status], read from the model at the same
    position; and an answer whose [models] is not an array gives no listing
    at all. *)
Theorem list_models_projects result r :
  list_models_result result = Some r ->
  exists models summaries,
    member result "models" = Some (VArr models) /\
    r = TextContent (VArr summaries) /\
    Forall2
      (fun m s =>
         s = VObj [("id", opt_member m "id");
                   ("name", opt_member m "name");
                   ("type", opt_member m "type");
                   ("status", opt_member m "status")])
      models summaries.
Proof.
  unfold list_models_result.
  destruct (member result "models") as [v|] eqn:Hv; [|discriminate].
  cbn [mbind option_bind]. destruct v; cbn [Array_map]; try discriminate.
  destruct (mapM model_summary items) as [summaries|] eqn:Hmap; [|discriminate].
  cbn. intros [= <-]. exists items, summaries.
  split; [reflexivity|]. split; [reflexivity|].
  apply mapM_Some_1 in Hmap.
  eapply Forall2_impl; [exact Hmap|].
  intros m s Hs. cbv beta in Hs.
  destruct (model_summary_keys m s Hs) as (i & n & t & st & -> & -> & -> & -> & ->).
  reflexivity.
Qed.

(** ** Clamping *)

Lemma Math_max_monotone lo x y :
  num_le x y -> num_le (Math_max lo x) (Math_max lo y).
Proof.
  intros Hxy. unfold Math_max.
  destruct (num_leb lo x) eqn:Hx, (num_leb lo y) eqn:Hy; try assumption.
  - eapply num_le_trans; [exact Hxy|].
    apply num_le_total. unfold num_le. congruence.
  - apply num_le_refl.
Qed.

Lemma Math_min_monotone hi x y :
  num_le x y -> num_le (Math_min hi x) (Math_min hi y).
Proof.
  intros Hxy. unfold Math_min.
  destruct (num_leb hi x) eqn:Hx, (num_leb hi y) eqn:Hy; try assumption.
  - apply num_le_refl.
  - eapply num_le_trans; [|exact Hxy]. exact Hx.
  - apply num_le_total. unfold num_le. congruence.
Qed.

(** X19. Asking for more never submits less: when [numSamples] grows, the
    [numSamples] that [txt2img] submits does not shrink, and when
    [strength] grows, the [strength] that [img2img] submits does not
    shrink. *)
Theorem submitted_value_monotone env fuel w a b x y :
  num_le x y ->
  (exists n m,
     submitted_field env fuel w (CallTxt2img (with_numSamples a x)) "numSamples"
       = Some (VNum n) /\
     submitted_field env fuel w (CallTxt2img (with_numSamples a y)) "numSamples"
       = Some (VNum m) /\
     num_le n m) /\
  (exists s t,
     submitted_field env fuel w (CallImg2img (with_strength b x)) "strength"
       = Some (VNum s) /\
     submitted_field env fuel w (CallImg2img (with_strength b y)) "strength"
       = Some (VNum t) /\
     num_le s t).
Proof.
  intros Hxy. split.
  - eexists _, _. split; [|split].
    + rewrite submitted_field_body. cbn [submit_request]. unfold txt2img_body.
      destruct (truthy _); reflexivity.
    + rewrite submitted_field_body. cbn [submit_request]. unfold txt2img_body.
      destruct (truthy _); reflexivity.
    + cbn [default with_numSamples t2i_numSamples].
      apply Math_min_monotone, Math_max_monotone, Hxy.
  - eexists _, _. split; [|split].
    + rewrite submitted_field_body. reflexivity.
    + rewrite submitted_field_body. reflexivity.
    + cbn [default with_strength i2i_strength].
      apply Math_min_monotone, Math_max_monotone, Hxy.
Qed.

(** ** The session table over time *)

Module Sessions.
Import Router Routing.

Section Gateway.

Variable randomUUID : nat -> string.
Hypothesis randomUUID_unique : Inj (=) (=) randomUUID.

Lemma size_step st e :
  consistent randomUUID st ->
  size (sessions st) = generated st ->
  size (sessions (step randomUUID st e)) = generated (step randomUUID st e).
Proof.
  intros Hc Hsize. destruct e as [req|t req]; cbn.
  - unfold route. destruct (sessions_get st (mcp_session_id req)); exact Hsize.
  - destruct (handleRequest_cases randomUUID t req st) as [[Ht Hi]| ->]; [|exact Hsize].
    rewrite handleRequest_opens by assumption. cbn.
    rewrite map_size_insert_None by (apply next_id_fresh; assumption).
    rewrite Hsize. reflexivity.
Qed.

Lemma size_run es :
  forall st,
  consistent randomUUID st ->
  size (sessions st) = generated st ->
  size (sessions (run randomUUID es st)) = generated (run randomUUID es st).
Proof.
  induction es as [|e es IH]; intros st Hc Hsize; [exact Hsize|].
  cbn. apply IH; [apply consistent_step, Hc|apply size_step; assumption].
Qed.

End Gateway.

(** X20. With collision-free id generation the session table holds, in
    every state the process can reach, exactly one entry per id drawn from
    the generator: its size is the number of ids generated so far.  Nothing
    is ever removed from it. *)
Theorem table_size (randomUUID : nat -> string) st :
  Inj (=) (=) randomUUID ->
  reachable randomUUID st ->
  size (sessions st) = generated st.
Proof.
  intros Hinj [es ->].
  apply size_run; [exact Hinj|apply consistent_start|reflexivity].
Qed.

(** X21. A session, once opened, keeps its transport.  After a request
    without a registered session has opened one, a request that carries
    the id generated for it is routed to the transport created then,
    whatever has happened in between, and handling it leaves the routing
    state as it is. *)
Theorem session_round_trip (randomUUID : nat -> string) st req es req' :
  Inj (=) (=) randomUUID ->
  reachable randomUUID st ->
  sessions_get st (mcp_session_id req) = None ->
  initializes req = true ->
  mcp_session_id req' = Some (randomUUID (generated st)) ->
  let opened := mcp randomUUID req st in
  let later := run randomUUID es (snd opened) in
  mcp randomUUID req' later = (fst opened, later).
Proof.
  intros Hinj Hreach Hget Hinit Hid opened later.
  pose proof (reachable_consistent randomUUID st Hreach) as Hc.
  assert (Hc1 : consistent randomUUID (snd opened)).
  { apply consistent_handleRequest. apply consistent_route, Hc. }
  assert (Hreg : sessions (snd opened) !! randomUUID (generated st) = Some (fst opened)).
  { destruct (route_then_handle randomUUID req st Hget Hinit) as [_ Hs].
    unfold opened, mcp. cbn [fst snd]. rewrite Hs. apply lookup_insert_eq. }
  assert (Hlater : sessions later !! randomUUID (generated st) = Some (fst opened))
    by (apply (run_keeps randomUUID Hinj); assumption).
  assert (Hc2 : consistent randomUUID later)
    by (apply consistent_run, Hc1).
  unfold mcp at 1. rewrite (route_known req' later _ _ Hid Hlater). cbn [fst snd].
  f_equal. apply handleRequest_idle. left.
  destruct Hc2 as [H1 _]. rewrite (H1 _ _ Hlater). discriminate.
Qed.

(** X22. A request that neither carries a registered session id nor opens
    a session leaves the table as it was, and leaves behind a new transport
    that no session id leads to. *)
Theorem stray_request (randomUUID : nat -> string) st req :
  reachable randomUUID st ->
  sessions_get st (mcp_session_id req) = None ->
  initializes req = false ->
  let handled := mcp randomUUID req st in
  sessions (snd handled) = sessions st /\
  length (heap (snd handled)) = S (length (heap st)) /\
  heap st !! fst handled = None /\
  forall id, sessions (snd handled) !! id <> Some (fst handled).
Proof.
  intros Hreach Hget Hinit handled.
  pose proof (reachable_consistent randomUUID st Hreach) as [H1 _].
  unfold handled, mcp. rewrite (route_unknown req st Hget). cbn [fst snd].
  rewrite handleRequest_idle by (right; exact Hinit). cbn [sessions heap].
  split; [reflexivity|]. split; [rewrite length_app; cbn; lia|].
  split; [apply lookup_ge_None; lia|].
  intros id Hid. apply H1 in Hid.
  apply lookup_lt_Some in Hid. lia.
Qed.

End Sessions.

(** ** Concrete runs of the further properties *)

Import Cases.

Lemma waitForJob_returns_only_success_witness :
  waitForJob scenario 10 j1 None w1 =
    (Return (job_done [a1]), snd (waitForJob scenario 10 j1 None w1)) /\
  member (job_done [a1]) "status" = Some (VStr "success") /\
  exists n result,
    snd (waitForJob scenario 10 j1 None w1) = after_poll scenario w1 j1 n /\
    answer (served scenario w1 n) = Return result /\
    member result "job" = Some (job_done [a1]).
Proof.
  assert (H : waitForJob scenario 10 j1 None w1 =
              (Return (job_done [a1]), snd (waitForJob scenario 10 j1 None w1)))
    by (vm_compute; reflexivity).
  split; [exact H|].
  exact (waitForJob_returns_only_success scenario w1 j1 None 10 _ _ H).
Defined.

Lemma waitForJob_failed_only_on_failed_witness :
  waitForJob failing 10 j1 None w1 =
    (Throw (JobFailed job_broken), snd (waitForJob failing 10 j1 None w1)) /\
  member job_broken "status" = Some (VStr "failed") /\
  exists n result,
    snd (waitForJob failing 10 j1 None w1) = after_poll failing w1 j1 n /\
    answer (served failing w1 n) = Return result /\
    member result "job" = Some job_broken.
Proof.
  assert (H : waitForJob failing 10 j1 None w1 =
              (Throw (JobFailed job_broken), snd (waitForJob failing 10 j1 None w1)))
    by (vm_compute; reflexivity).
  split; [exact H|].
  exact (waitForJob_failed_only_on_failed failing w1 j1 None 10 _ _ H).
Defined.

Lemma waitForJob_timeout_not_early_witness :
  waitForJob stalled 5 j1 (Some 1000) w0 =
    (Throw (JobTimedOut 1000), snd (waitForJob stalled 5 j1 (Some 1000) w0)) /\
  1000 = default 120000 (Some 1000) /\
  1000 <= clock (snd (waitForJob stalled 5 j1 (Some 1000) w0)) - clock w0.
Proof.
  assert (H : waitForJob stalled 5 j1 (Some 1000) w0 =
              (Throw (JobTimedOut 1000), snd (waitForJob stalled 5 j1 (Some 1000) w0)))
    by (vm_compute; reflexivity).
  split; [exact H|].
  exact (waitForJob_timeout_not_early stalled w0 j1 (Some 1000) 5 _ _ H).
Defined.

Lemma waitForJob_query_bound_witness :
  (forall i, 0 <= took (served stalled w0 i) /\
             0 <= overshoot stalled (length (wire w0) + S i)) /\
  2000 * Z.of_nat (length (sent w0 (waitForJob stalled 100 j1 (Some 120000)))) <
    Z.max 0 120000 + 2000.
Proof.
  split; [exact stalled_sane|].
  exact (waitForJob_query_bound stalled w0 j1 120000 100 stalled_sane).
Defined.

Lemma waitForJob_terminates_witness :
  (forall i, 0 <= took (served stalled w0 i) /\
             0 <= overshoot stalled (length (wire w0) + S i)) /\
  (Z.to_nat (120000 / 2000) + 2 <= 62)%nat /\
  fst (waitForJob stalled 62 j1 (Some 120000) w0) <> Unfinished.
Proof.
  assert (H : (Z.to_nat (120000 / 2000) + 2 <= 62)%nat) by (vm_compute; lia).
  split; [exact stalled_sane|]. split; [exact H|].
  exact (waitForJob_terminates stalled w0 j1 120000 62 stalled_sane H).
Defined.

Lemma waitForJob_longer_deadline_witness :
  waitForJob scenario 10 j1 (Some 120000) w1 =
    (Return (job_done [a1]), snd (waitForJob scenario 10 j1 (Some 120000) w1)) /\
  waitForJob scenario 10 j1 (Some 180000) w1 =
    (Return (job_done [a1]), snd (waitForJob scenario 10 j1 (Some 120000) w1)).
Proof.
  assert (H : waitForJob scenario 10 j1 (Some 120000) w1 =
              (Return (job_done [a1]), snd (waitForJob scenario 10 j1 (Some 120000) w1)))
    by (vm_compute; reflexivity).
  split; [exact H|].
  apply (waitForJob_longer_deadline scenario w1 j1 120000 180000 10 _ _ H);
    [discriminate|discriminate|lia].
Defined.

Lemma waitForJob_poll_error_witness :
  (forall i, (i < 1)%nat -> observe (served flaky w1 i) = Running) /\
  observe (served flaky w1 1) = Broken (ScenarioApiError 503 "busy") /\
  (forall i, (i <= 1)%nat -> poll_clock flaky w1 i - clock w1 < 120000) /\
  waitForJob flaky 10 j1 (Some 120000) w1 =
    (Throw (ScenarioApiError 503 "busy"), after_poll flaky w1 j1 1).
Proof.
  assert (H1 : forall i, (i < 1)%nat -> observe (served flaky w1 i) = Running)
    by (intros [|i] Hi; [reflexivity|lia]).
  assert (H2 : observe (served flaky w1 1) = Broken (ScenarioApiError 503 "busy"))
    by reflexivity.
  assert (H3 : forall i, (i <= 1)%nat -> poll_clock flaky w1 i - clock w1 < 120000)
    by (intros [|[|i]] Hi; [reflexivity|reflexivity|lia]).
  split; [exact H1|]. split; [exact H2|]. split; [exact H3|].
  apply (waitForJob_poll_error flaky w1 j1 120000 1 _ 10 H1 H2 H3). lia.
Defined.

Lemma waitForJob_no_budget_witness :
  0 <= 0 /\ (0 < 3)%nat /\
  waitForJob stalled 3 j1 (Some 0) w0 = (Throw (JobTimedOut 0), w0).
Proof.
  split; [lia|]. split; [lia|].
  apply (waitForJob_no_budget stalled w0 j1 0 3); lia.
Defined.

Lemma call_tool_submission_failure_witness :
  answer (served locked w0 0) = Throw (ScenarioApiError 401 "unauthorized") /\
  call_tool locked 10 (CallUpscale an_upscale) w0 =
    (Throw (ScenarioApiError 401 "unauthorized"),
     after_request locked w0 (submit_request locked (CallUpscale an_upscale))).
Proof.
  split; [reflexivity|].
  exact (call_tool_submission_failure locked 10 (CallUpscale an_upscale) w0 _ eq_refl).
Defined.

Lemma call_tool_wait_failure_witness :
  answer (served failing w0 0) = Return (VObj [("job", VObj [("jobId", j1)])]) /\
  waitForJob failing 10 j1 (Some 120000)
    (after_request failing w0 (submit_request failing (CallRemoveBackground an_edit))) =
    (Throw (JobFailed job_broken),
     snd (call_tool failing 10 (CallRemoveBackground an_edit) w0)) /\
  call_tool failing 10 (CallRemoveBackground an_edit) w0 =
    (Throw (JobFailed job_broken),
     snd (call_tool failing 10 (CallRemoveBackground an_edit) w0)) /\
  asset_fetches (sent w0 (call_tool failing 10 (CallRemoveBackground an_edit))) = [].
Proof.
  assert (Hwait :
    waitForJob failing 10 j1 (Some (deadline_of (CallRemoveBackground an_edit)))
      (after_request failing w0 (submit_request failing (CallRemoveBackground an_edit))) =
      (Throw (JobFailed job_broken),
       snd (call_tool failing 10 (CallRemoveBackground an_edit) w0)))
    by (vm_compute; reflexivity).
  split; [reflexivity|]. split; [exact Hwait|].
  exact (call_tool_wait_failure failing 10 (CallRemoveBackground an_edit) w0
           _ _ j1 _ _ eq_refl eq_refl eq_refl Hwait).
Defined.

Lemma resolve_stops_at_first_failure_witness :
  [a1; a2; a1] !! 1%nat = Some a2 /\
  (forall i a, (i < 1)%nat -> [a1; a2; a1] !! i = Some a ->
     is_Some (described gap w0 txt2img_descriptor i a)) /\
  described gap w0 txt2img_descriptor 1 a2 = None /\
  fst (for_of [a1; a2; a1] (push_asset gap txt2img_descriptor) [] w0) =
    Throw (ScenarioApiError 404 "not found") /\
  sent w0 (for_of [a1; a2; a1] (push_asset gap txt2img_descriptor) []) =
    [options gap GET (Assets a1) null; options gap GET (Assets a2) null].
Proof.
  assert (Hbefore : forall i a, (i < 1)%nat -> [a1; a2; a1] !! i = Some a ->
                    is_Some (described gap w0 txt2img_descriptor i a)).
  { intros [|i] a Hi Ha; [|lia]. cbn in Ha. injection Ha as <-.
    eexists. vm_compute. reflexivity. }
  split; [reflexivity|]. split; [exact Hbefore|]. split; [reflexivity|].
  exact (resolve_stops_at_first_failure gap txt2img_descriptor [a1; a2; a1] w0 1 a2
           eq_refl Hbefore eq_refl).
Defined.

Lemma get_asset_reads_asset_witness :
  answer (served bare w0 0) = Return bare_asset /\
  member bare_asset "asset" =
    Some (VObj [("id", VStr "zz"); ("url", VStr "https://x/zz.png")]) /\
  get_asset bare a1 w0 =
    (Return
       (TextContent
          (VObj [("id", VStr "zz");
                 ("url", VStr "https://x/zz.png");
                 ("type", undefined);
                 ("description", undefined);
                 ("width", undefined);
                 ("height", undefined);
                 ("createdAt", undefined)])),
     after_request bare w0 (options bare GET (Assets a1) null)).
Proof.
  split; [reflexivity|]. split; [reflexivity|].
  exact (get_asset_reads_asset bare a1 w0 bare_asset _ eq_refl eq_refl eq_refl).
Defined.

Lemma get_asset_without_asset_witness :
  answer (served scenario w0 0) = Return (VObj [("job", VObj [("jobId", j1)])]) /\
  nullish (opt_member (VObj [("job", VObj [("jobId", j1)])]) "asset") = true /\
  get_asset scenario a1 w0 =
    (Throw TypeError, after_request scenario w0 (options scenario GET (Assets a1) null)).
Proof.
  split; [reflexivity|]. split; [reflexivity|].
  exact (get_asset_without_asset scenario a1 w0 _ eq_refl eq_refl).
Defined.

Lemma list_assets_all_or_nothing_witness :
  member holed_listing "assets" =
    Some (VArr [VObj [("id", a1)]; null; VObj [("id", a2)]]) /\
  list_assets_result holed_listing = None.
Proof.
  split; [reflexivity|].
  apply (list_assets_all_or_nothing holed_listing _ eq_refl).
  right. left. reflexivity.
Defined.

Lemma list_models_projects_witness :
  list_models_result models_listing =
    Some (TextContent
            (VArr [VObj [("id", VStr "m1"); ("name", VStr "flux");
                         ("type", VStr "flux.1"); ("status", VStr "trained")]])) /\
  exists models summaries,
    member models_listing "models" = Some (VArr models) /\
    TextContent
      (VArr [VObj [("id", VStr "m1"); ("name", VStr "flux");
                   ("type", VStr "flux.1"); ("status", VStr "trained")]]) =
      TextContent (VArr summaries) /\
    Forall2
      (fun m s =>
         s = VObj [("id", opt_member m "id");
                   ("name", opt_member m "name");
                   ("type", opt_member m "type");
                   ("status", opt_member m "status")])
      models summaries.
Proof.
  split; [reflexivity|].
  exact (list_models_projects models_listing _ eq_refl).
Defined.

Lemma submitted_value_monotone_witness :
  num_le (of_Z 2) (of_Z 7) /\
  (exists n m,
     submitted_field scenario 10 w0 (CallTxt2img (with_numSamples a_prompt (of_Z 2)))
       "numSamples" = Some (VNum n) /\
     submitted_field scenario 10 w0 (CallTxt2img (with_numSamples a_prompt (of_Z 7)))
       "numSamples" = Some (VNum m) /\
     num_le n m) /\
  (exists s t,
     submitted_field scenario 10 w0 (CallImg2img (with_strength an_image (of_Z 2)))
       "strength" = Some (VNum s) /\
     submitted_field scenario 10 w0 (CallImg2img (with_strength an_image (of_Z 7)))
       "strength" = Some (VNum t) /\
     num_le s t).
Proof.
  split; [reflexivity|].
  exact (submitted_value_monotone scenario 10 w0 a_prompt an_image (of_Z 2) (of_Z 7) eq_refl).
Defined.

Lemma counter_id_unique : Inj (=) (=) counter_id.
Proof. unfold counter_id. apply _. Qed.

Lemma table_size_witness :
  Inj (=) (=) counter_id /\
  Router.reachable counter_id
    (Router.run counter_id [Router.Arrives opener; Router.Handles 0 opener] Router.start) /\
  size (Router.sessions
          (Router.run counter_id [Router.Arrives opener; Router.Handles 0 opener]
             Router.start)) = 1%nat.
Proof.
  assert (Hreach : Router.reachable counter_id
            (Router.run counter_id [Router.Arrives opener; Router.Handles 0 opener]
               Router.start)) by (eexists; reflexivity).
  split; [exact counter_id_unique|]. split; [exact Hreach|].
  exact (Sessions.table_size counter_id _ counter_id_unique Hreach).
Defined.

Lemma session_round_trip_witness :
  Inj (=) (=) counter_id /\
  Router.reachable counter_id Router.start /\
  mcp counter_id follow_up
    (Router.run counter_id [Router.Arrives opener]
       (snd (mcp counter_id opener Router.start))) =
    (fst (mcp counter_id opener Router.start),
     Router.run counter_id [Router.Arrives opener]
       (snd (mcp counter_id opener Router.start))).
Proof.
  assert (Hreach : Router.reachable counter_id Router.start) by (exists []; reflexivity).
  split; [exact counter_id_unique|]. split; [exact Hreach|].
  exact (Sessions.session_round_trip counter_id Router.start opener
           [Router.Arrives opener] follow_up counter_id_unique Hreach
           eq_refl eq_refl eq_refl).
Defined.

Lemma stray_request_witness :
  Router.reachable counter_id Router.start /\
  Router.sessions (snd (mcp counter_id follow_up Router.start)) =
    Router.sessions Router.start /\
  length (Router.heap (snd (mcp counter_id follow_up Router.start))) = 1%nat.
Proof.
  assert (Hreach : Router.reachable counter_id Router.start) by (exists []; reflexivity).
  split; [exact Hreach|].
  destruct (Sessions.stray_request counter_id Router.start follow_up Hreach
              eq_refl eq_refl) as (Hs & Hl & _).
  split; [exact Hs|exact Hl].
Defined.

